(** * Synchronous data-parallel training with loss scaling

    A shallow embedding of the training code of the TensorFlow 2.x tutorial
    notebooks:

    - [28_Custom_training_with_tf.distribute.Strategy]: [compute_loss],
      [train_step], [distributed_train_step], the checkpoint and the
      iterator driven loop;
    - "Multi-worker training with Estimator": [input_fn] and [model_fn];
    - [27_Distributed_training_with_Keras] and "Save and load a model using
      a distribution strategy": the batch size configuration;
    - [06_Save_and_load_models]: [save_weights] and [load_weights].

    The notebooks are client code of a framework.  The framework's pieces
    (network, per-example loss, automatic differentiation, optimizer) are
    interfaces here, given as type classes; the notebook code is written
    once over them.  Tensor entries are kept abstract as well ([Arith]):
    the theorems are proved for exact rational arithmetic ([Qc]) and the
    propagation of a non-finite value is studied in a second instance
    ([xnum]). *)

From Stdlib Require Import String.
From Stdlib Require Import List Arith Lia ZArith QArith Qcanon Bool Permutation.
Import ListNotations.

Set Implicit Arguments.

Local Open Scope nat_scope.
Set Warnings "-abstract-large-number".

(** ** Arithmetic of tensor entries *)

Class Arith (num : Type) : Type := {
  zero : num;
  one : num;
  add : num -> num -> num;
  sub : num -> num -> num;
  mul : num -> num -> num;
  div : num -> num -> num;
  sqrt : num -> num;
  eqb : num -> num -> bool;
  of_Z : Z -> num
}.

(** The cast of a Python integer, such as a batch size. *)
Definition of_nat {num : Type} {A : Arith num} (n : nat) : num :=
  of_Z (Z.of_nat n).

(** Exact rationals in canonical form.  The square root of a rational is
    not a rational in general: [Qc_sqrt] is exact on the squares of
    rationals and elsewhere rounds the root down to a multiple of
    [1 / (den * 10^9)], where the optimizer's root is rounded to a
    float. *)

Definition Qc_of_Z (z : Z) : Qc := Q2Qc (inject_Z z).

Definition Qc_sqrt (q : Qc) : Qc :=
  Q2Qc (Z.sqrt (Qnum q * Zpos (Qden q) * 1000000000000000000)
        # (Qden q * 1000000000)).

Definition Qc_eqb (a b : Qc) : bool := Qeq_bool a b.

#[export] Instance Qc_arith : Arith Qc := {|
  zero := 0%Qc;
  one := 1%Qc;
  add := Qcplus;
  sub := Qcminus;
  mul := Qcmult;
  div := Qcdiv;
  sqrt := Qc_sqrt;
  eqb := Qc_eqb;
  of_Z := Qc_of_Z
|}.

(** Rationals extended with one absorbing non-finite value, as a float
    NaN: every operation with a [NaN] operand gives [NaN], division by
    zero gives [NaN], and no comparison with [NaN] holds. *)

Inductive xnum : Type :=
| Fin (q : Qc)
| NaN.

Definition xlift2 (f : Qc -> Qc -> Qc) (a b : xnum) : xnum :=
  match a, b with
  | Fin x, Fin y => Fin (f x y)
  | _, _ => NaN
  end.

Definition xdiv (a b : xnum) : xnum :=
  match a, b with
  | Fin x, Fin y => if Qc_eqb y 0%Qc then NaN else Fin (Qcdiv x y)
  | _, _ => NaN
  end.

Definition xsqrt (a : xnum) : xnum :=
  match a with
  | Fin x => Fin (Qc_sqrt x)
  | NaN => NaN
  end.

Definition xeqb (a b : xnum) : bool :=
  match a, b with
  | Fin x, Fin y => Qc_eqb x y
  | _, _ => false
  end.

#[export] Instance xnum_arith : Arith xnum := {|
  zero := Fin 0%Qc;
  one := Fin 1%Qc;
  add := xlift2 Qcplus;
  sub := xlift2 Qcminus;
  mul := xlift2 Qcmult;
  div := xdiv;
  sqrt := xsqrt;
  eqb := xeqb;
  of_Z := fun z => Fin (Qc_of_Z z)
|}.

(** ** Tensor operations used by the notebooks *)

Section Tensors.
Context {num : Type} {A : Arith num}.

(** [tf.reduce_sum] of a rank-1 tensor. *)
Definition reduce_sum (t : list num) : num := fold_right add zero t.

(** [tf.reduce_mean]: the sum divided by the actual number of entries. *)
Definition reduce_mean (t : list num) : num :=
  div (reduce_sum t) (of_nat (length t)).

(** Entry-wise sum of two gradient collections of one shape. *)
Fixpoint vadd (a b : list num) : list num :=
  match a, b with
  | x :: a', y :: b' => add x y :: vadd a' b'
  | _, _ => []
  end.

Definition vscale (c : num) (t : list num) : list num := map (mul c) t.

(** Sum of a list of collections with [n] entries each. *)
Definition add_n (n : nat) (ts : list (list num)) : list num :=
  fold_right vadd (repeat zero n) ts.

(** [tf.nn.compute_average_loss(per_example_loss, global_batch_size)]:
    as the notebook puts it,
    [tf.reduce_sum(loss) * (1. / GLOBAL_BATCH_SIZE)]. *)
Definition compute_average_loss (per_example_loss : list num)
    (global_batch_size : nat) : num :=
  mul (reduce_sum per_example_loss) (div one (of_nat global_batch_size)).

(** [tf.distribute.ReduceOp] and [strategy.reduce(op, value, axis=None)]
    on a per-replica value. *)
Inductive ReduceOp : Type := SUM | MEAN.

Definition strategy_reduce (op : ReduceOp) (per_replica : list num) : num :=
  match op with
  | SUM => reduce_sum per_replica
  | MEAN => reduce_mean per_replica
  end.

(** [tf.keras.metrics.Mean] and [SparseCategoricalAccuracy] keep two
    weights, [total] and [count]. *)
Record Metric : Type := { total : num; count : num }.

Definition new_metric : Metric := {| total := zero; count := zero |}.

Definition update_state (m : Metric) (values : list num) : Metric :=
  {| total := add (total m) (reduce_sum values);
     count := add (count m) (of_nat (length values)) |}.

Definition result (m : Metric) : num := div (total m) (count m).

Definition reset_states (m : Metric) : Metric := new_metric.
End Tensors.

Arguments Metric num : clear implicits.

(** ** The framework's interfaces

    [Network] stands for the Keras model built by [create_model] together
    with the loss class and the automatic differentiation of the framework.
    The model of notebook 28 has convolution, pooling and dense layers
    only, so a prediction depends on one example at a time.  [grad_fn w x y]
    is the gradient of [loss_fn y (model w x)] in the variables [w]: one
    entry per variable.  [image_div] divides an image tensor by a number
    and [hit] is the comparison made by [SparseCategoricalAccuracy]. *)

Class Network (num : Type) : Type := {
  image : Type;
  label : Type;
  prediction : Type;
  image_div : image -> num -> image;
  model : list num -> image -> prediction;
  loss_fn : label -> prediction -> num;
  grad_fn : list num -> image -> label -> list num;
  grad_fn_length : forall w x y, length (grad_fn w x y) = length w;
  hit : label -> prediction -> bool
}.

(** An optimizer owns its slots and consumes the pairs
    [zip(gradients, variables)], giving the new slots and the new values of
    the variables. *)

Class Optimizer (num : Type) : Type := {
  slots : Type;
  init_slots : slots;
  apply_gradients : slots -> list (num * num) -> slots * list num
}.

(** [tf.distribute.MirroredStrategy]: one replica per device. *)

Record MirroredStrategy : Type := { devices : list String.string }.

Definition num_replicas_in_sync (strategy : MirroredStrategy) : nat :=
  length (devices strategy).

(** ** Notebook 28: custom training with a distribution strategy *)

Definition BATCH_SIZE_PER_REPLICA : nat := 64.

Definition GLOBAL_BATCH_SIZE (strategy : MirroredStrategy) : nat :=
  BATCH_SIZE_PER_REPLICA * num_replicas_in_sync strategy.

Definition EPOCHS : nat := 10.

Section CustomTraining.
Context {num : Type} {A : Arith num} {Net : Network num} {Opt : Optimizer num}.

(** The value of the global [GLOBAL_BATCH_SIZE] the step functions read. *)
Variable global_batch_size : nat.

(** A batch holds the examples [(image, label)] in order;
    [images, labels = inputs] takes it apart. *)
Definition batch : Type := list (image * label).

(** Every replica holds its own copy of the model's variables and of the
    optimizer's slots. *)
Record replica : Type := {
  trainable_variables : list num;
  optimizer_slots : slots
}.

Record train_state : Type := {
  replicas : list replica;
  train_accuracy : Metric num
}.

(** Variables created under [strategy.scope()] are mirrored. *)
Definition scope_create (strategy : MirroredStrategy) (w0 : list num)
    : train_state :=
  {| replicas := map (fun _ => {| trainable_variables := w0;
                                  optimizer_slots := init_slots |})
                     (devices strategy);
     train_accuracy := new_metric |}.

(** [SparseCategoricalCrossentropy(reduction=Reduction.NONE)]: one loss
    per example. *)
Definition loss_object (labels : list label) (predictions : list prediction)
    : list num :=
  map (fun yp => loss_fn (fst yp) (snd yp)) (combine labels predictions).

Definition compute_loss (labels : list label) (predictions : list prediction)
    : num :=
  let per_example_loss := loss_object labels predictions in
  compute_average_loss per_example_loss global_batch_size.

(** [tape.gradient(loss, model.trainable_variables)] for the loss recorded
    by [compute_loss]: the tape goes back through the product with
    [1. / GLOBAL_BATCH_SIZE] and through the sum, and accumulates the
    scaled gradient of every example. *)
Definition tape_gradient (w : list num) (images : list image)
    (labels : list label) : list num :=
  add_n (length w)
    (map (fun xy => vscale (div one (of_nat global_batch_size))
                           (grad_fn w (fst xy) (snd xy)))
         (combine images labels)).

(** [SparseCategoricalAccuracy.update_state(labels, predictions)]. *)
Definition accuracy_update (m : Metric num) (labels : list label)
    (predictions : list prediction) : Metric num :=
  update_state m
    (map (fun yp => if hit (fst yp) (snd yp) then one else zero)
         (combine labels predictions)).

(** [train_step] as one replica runs it.  [optimizer.apply_gradients] is
    called in the replica's context: it first sums the gradients over the
    replicas; [all_reduce] is that sum as this replica sees it. *)
Definition train_step (all_reduce : list num -> list num)
    (r : replica) (accuracy : Metric num) (inputs : batch)
    : replica * Metric num * num :=
  let images := map fst inputs in
  let labels := map snd inputs in
  let predictions := map (model (trainable_variables r)) images in
  let loss := compute_loss labels predictions in
  let gradients := tape_gradient (trainable_variables r) images labels in
  let '(slots', variables') :=
    apply_gradients (optimizer_slots r)
      (combine (all_reduce gradients) (trainable_variables r)) in
  let accuracy' := accuracy_update accuracy labels predictions in
  ({| trainable_variables := variables'; optimizer_slots := slots' |},
   accuracy', loss).

(** The gradient a replica brings to the reduction. *)
Definition replica_gradients (r : replica) (inputs : batch) : list num :=
  tape_gradient (trainable_variables r) (map fst inputs) (map snd inputs).

(** The sum the [k]-th replica obtains for its gradient [g], the other
    replicas having brought [gs]. *)
Definition all_reduce_sum (n k : nat) (gs : list (list num))
    (g : list num) : list num :=
  add_n n (firstn k gs ++ g :: skipn (S k) gs).

(** [strategy.experimental_run_v2(train_step, args=(dataset_inputs,))]:
    every replica runs [train_step] on its component of the input. *)
Fixpoint run_replicas (k : nat) (gs : list (list num))
    (rxs : list (replica * batch)) (accuracy : Metric num)
    : list replica * Metric num * list num :=
  match rxs with
  | [] => ([], accuracy, [])
  | (r, x) :: rest =>
      let '(r', accuracy1, loss) :=
        train_step (all_reduce_sum (length (trainable_variables r)) k gs)
                   r accuracy x in
      let '(rs', accuracy2, losses) :=
        run_replicas (S k) gs rest accuracy1 in
      (r' :: rs', accuracy2, loss :: losses)
  end.

Definition experimental_run_v2 (rs : list replica)
    (dataset_inputs : list batch) (accuracy : Metric num)
    : list replica * Metric num * list num :=
  let rxs := combine rs dataset_inputs in
  let gs := map (fun rx => replica_gradients (fst rx) (snd rx)) rxs in
  run_replicas 0 gs rxs accuracy.

Definition distributed_train_step (st : train_state)
    (dataset_inputs : list batch) : train_state * num :=
  let '(rs', accuracy', per_replica_losses) :=
    experimental_run_v2 (replicas st) dataset_inputs (train_accuracy st) in
  ({| replicas := rs'; train_accuracy := accuracy' |},
   strategy_reduce SUM per_replica_losses).

(** The training loop of one epoch:
    [for x in train_dist_dataset: total_loss += distributed_train_step(x);
    num_batches += 1]. *)
Fixpoint train_loop (st : train_state) (total_loss : num) (num_batches : nat)
    (train_dist_dataset : list (list batch)) : train_state * num * nat :=
  match train_dist_dataset with
  | [] => (st, total_loss, num_batches)
  | x :: rest =>
      let '(st', loss) := distributed_train_step st x in
      train_loop st' (add total_loss loss) (S num_batches) rest
  end.

(** [distributed_train_epoch(dataset)], the loop inside a [tf.function]:
    it leaves the variables, the optimizer and [train_accuracy] as the
    steps made them and returns [total_loss / tf.cast(num_batches,
    tf.float32)], a quotient of tensors.  For a dataset with no batch
    that is [0.0 / 0.0], not a number: the quotient [div zero zero] of the
    arithmetic at hand. *)
Definition distributed_train_epoch (st : train_state)
    (dataset : list (list batch)) : train_state * num :=
  let '(st', total_loss, num_batches) := train_loop st zero 0 dataset in
  (st', div total_loss (of_nat num_batches)).
End CustomTraining.

(** ** Optimizers of the notebooks *)

Section Optimizers.
Context {num : Type} {A : Arith num}.

Fixpoint pow (b : num) (n : nat) : num :=
  match n with
  | 0 => one
  | S n' => mul b (pow b n')
  end.

Definition ratio (a b : Z) : num := div (of_Z a) (of_Z b).

(** [tf.compat.v1.train.GradientDescentOptimizer(learning_rate)]: no
    slots, [variable -= learning_rate * gradient]. *)
Definition GradientDescentOptimizer (learning_rate : num) : Optimizer num :=
  {| slots := unit;
     init_slots := tt;
     apply_gradients := fun s gv =>
       (s, map (fun p => sub (snd p) (mul learning_rate (fst p))) gv) |}.

(** [tf.keras.optimizers.Adam()] with its default hyper-parameters.  The
    optimizer counts its [iterations] and keeps two moment estimates per
    variable, created as zeros at the first update. *)
Record adam_slots : Type := {
  iterations : nat;
  moments : list (num * num)
}.

Definition adam_learning_rate : num := ratio 1 1000.
Definition adam_beta_1 : num := ratio 9 10.
Definition adam_beta_2 : num := ratio 999 1000.
Definition adam_epsilon : num := ratio 1 10000000.

Definition adam_update (lr_t : num) (gw : num * num) (mv : num * num)
    : (num * num) * num :=
  let g := fst gw in
  let m := add (mul adam_beta_1 (fst mv)) (mul (sub one adam_beta_1) g) in
  let v := add (mul adam_beta_2 (snd mv))
               (mul (sub one adam_beta_2) (mul g g)) in
  ((m, v), sub (snd gw) (div (mul lr_t m) (add (sqrt v) adam_epsilon))).

Definition adam_apply (s : adam_slots) (gv : list (num * num))
    : adam_slots * list num :=
  let t := S (iterations s) in
  let lr_t := div (mul adam_learning_rate (sqrt (sub one (pow adam_beta_2 t))))
                  (sub one (pow adam_beta_1 t)) in
  let ms := moments s
            ++ repeat (zero, zero) (length gv - length (moments s)) in
  let updated := map (fun p => adam_update lr_t (fst p) (snd p))
                     (combine gv ms) in
  ({| iterations := t; moments := map fst updated |}, map snd updated).

Definition Adam : Optimizer num :=
  {| slots := adam_slots;
     init_slots := {| iterations := 0; moments := [] |};
     apply_gradients := adam_apply |}.
End Optimizers.

(** ** A small network to run the code on

    One input feature, the prediction is the feature times the sum of the
    variables, the loss of an example is the squared error. *)

Section LinearRegression.
Context {num : Type} {A : Arith num}.

Definition linear_model (w : list num) (x : num) : num :=
  mul (reduce_sum w) x.

Definition squared_error (y p : num) : num := mul (sub p y) (sub p y).

Definition squared_error_grad (w : list num) (x y : num) : list num :=
  map (fun _ => mul (mul (of_Z 2) (sub (linear_model w x) y)) x) w.

Definition linear_regression : Network num :=
  {| image := num;
     label := num;
     prediction := num;
     image_div := div;
     model := linear_model;
     loss_fn := squared_error;
     grad_fn := squared_error_grad;
     grad_fn_length := fun w x y => length_map _ w;
     hit := eqb |}.
End LinearRegression.

(** ** Checkpoints and iterators of notebook 28 *)

Section Checkpoints.
Context {num : Type} {A : Arith num} {Net : Network num} {Opt : Optimizer num}.

(** What a checkpoint file holds for the tracked objects: the values of
    the model's variables and, when an optimizer is tracked, its slots. *)
Record Snapshot : Type := {
  saved_variables : list num;
  saved_slots : option slots
}.

(** A checkpoint directory: the files written so far, the newest first,
    each under its prefix and save counter. *)
Definition directory : Type := list (String.string * nat * Snapshot).

(** [tf.train.Checkpoint(optimizer=optimizer, model=model)] with its
    save counter.  A mirrored variable is saved once, from the first
    replica. *)
Definition checkpoint_save (save_counter : nat) (prefix : String.string)
    (st : train_state) (dir : directory) : nat * directory :=
  match replicas st with
  | [] => (save_counter, dir)
  | r :: _ =>
      (S save_counter,
       (prefix, S save_counter,
        {| saved_variables := trainable_variables r;
           saved_slots := Some (optimizer_slots r) |}) :: dir)
  end.

(** [tf.train.latest_checkpoint(checkpoint_dir)]. *)
Definition latest_checkpoint (dir : directory) : option Snapshot :=
  match dir with
  | [] => None
  | (_, _, snap) :: _ => Some snap
  end.

(** [checkpoint.restore(path)] assigns the saved values to every copy of
    the objects the restoring checkpoint tracks; with no path nothing is
    assigned. *)
Definition restore_replica (snap : Snapshot) (r : replica) : replica :=
  {| trainable_variables := saved_variables snap;
     optimizer_slots := match saved_slots snap with
                        | Some s => s
                        | None => optimizer_slots r
                        end |}.

Definition checkpoint_restore (path : option Snapshot) (target : train_state)
    : train_state :=
  match path with
  | None => target
  | Some snap =>
      {| replicas := map (restore_replica snap) (replicas target);
         train_accuracy := train_accuracy target |}
  end.

(** Notebook 06: [model.save_weights(path)] writes a checkpoint in the
    TensorFlow format.  For a compiled model it holds the weights and the
    variables of the model's optimizer: the notebook's own output names
    [(root).optimizer.iter], [beta_1], [beta_2], [decay] and
    [learning_rate] among the objects of such a checkpoint.
    [model = create_model()] builds and compiles a new model, with a new
    optimizer; [model.load_weights(path)] assigns what the checkpoint
    holds to the model and to its optimizer. *)
Definition save_weights (r : replica) : Snapshot :=
  {| saved_variables := trainable_variables r;
     saved_slots := Some (optimizer_slots r) |}.

Definition create_model (w0 : list num) : replica :=
  {| trainable_variables := w0; optimizer_slots := init_slots |}.

Definition load_weights (snap : Snapshot) (r : replica) : replica :=
  restore_replica snap r.

(** [iter(train_dist_dataset)] and [next(train_iter)].  The iterator
    reads its dataset at a position; [next] raises [StopIteration], here
    [None], at the end. *)
Record Iterator : Type := {
  source : list (list batch);
  position : nat
}.

Definition iter (train_dist_dataset : list (list batch)) : Iterator :=
  {| source := train_dist_dataset; position := 0 |}.

Definition next (it : Iterator) : option (list batch * Iterator) :=
  match nth_error (source it) (position it) with
  | Some x => Some (x, {| source := source it; position := S (position it) |})
  | None => None
  end.

Variable global_batch_size : nat.

(** [for _ in range(n): total_loss += distributed_train_step(next(train_iter));
    num_batches += 1]. *)
Fixpoint iterator_steps (n : nat) (st : train_state) (train_iter : Iterator)
    (total_loss : num) (num_batches : nat)
    : option (train_state * Iterator * num * nat) :=
  match n with
  | O => Some (st, train_iter, total_loss, num_batches)
  | S n' =>
      match next train_iter with
      | None => None
      | Some (x, train_iter') =>
          let '(st', loss) := distributed_train_step global_batch_size st x in
          iterator_steps n' st' train_iter' (add total_loss loss)
                         (S num_batches)
      end
  end.

(** One round of the loop "Using iterators": a new iterator, ten steps,
    the average loss, and the reset of the accuracy. *)
Definition iterator_epoch (st : train_state)
    (train_dist_dataset : list (list batch)) : option (train_state * num) :=
  let train_iter := iter train_dist_dataset in
  match iterator_steps 10 st train_iter zero 0 with
  | None => None
  | Some (st', _, total_loss, num_batches) =>
      Some ({| replicas := replicas st';
               train_accuracy := reset_states (train_accuracy st') |},
            div total_loss (of_nat num_batches))
  end.
End Checkpoints.

(** ** Multi-worker training with Estimator *)

Module MultiWorkerEstimator.

Definition BUFFER_SIZE : nat := 10000.
Definition BATCH_SIZE : nat := 64.

Inductive ModeKeys : Type := TRAIN | EVAL | PREDICT.

(** [tf.distribute.InputContext]. *)
Record InputContext : Type := {
  num_input_pipelines : nat;
  input_pipeline_id : nat
}.

(** The cluster of [TF_CONFIG]: two workers, this task is worker 0. *)
Definition TF_CONFIG_workers : list String.string :=
  ["localhost:12345"%string; "localhost:23456"%string].

Definition TF_CONFIG_task_index : nat := 0.

(** The strategy gives the [input_fn] of worker [i] its input context:
    one input pipeline per worker. *)
Definition worker_input_context (i : nat) : InputContext :=
  {| num_input_pipelines := length TF_CONFIG_workers;
     input_pipeline_id := i |}.

Section Datasets.
Variable X : Type.

(** [Dataset.shard(num_shards, index)] keeps the elements whose position
    is [index] modulo [num_shards]. *)
Fixpoint shard_from (num_shards index pos : nat) (ds : list X) : list X :=
  match ds with
  | [] => []
  | x :: rest =>
      if pos mod num_shards =? index
      then x :: shard_from num_shards index (S pos) rest
      else shard_from num_shards index (S pos) rest
  end.

(** The framework rejects [num_shards < 1] and an index out of range. *)
Definition shard (num_shards index : nat) (ds : list X) : option (list X) :=
  if (1 <=? num_shards) && (index <? num_shards)
  then Some (shard_from num_shards index 0 ds)
  else None.

(** [Dataset.batch(batch_size)]: consecutive elements, the last batch
    may be smaller. *)
Fixpoint batch_fuel (fuel batch_size : nat) (ds : list X) : list (list X) :=
  match fuel, ds with
  | S fuel', _ :: _ =>
      firstn batch_size ds :: batch_fuel fuel' batch_size (skipn batch_size ds)
  | _, _ => []
  end.

Definition dataset_batch (batch_size : nat) (ds : list X) : list (list X) :=
  batch_fuel (length ds) batch_size ds.
End Datasets.

Section Estimator.
Context {num : Type} {A : Arith num} {Net : Network num}.

(** [tfds.load(name='mnist')]: the train and the test split. *)
Variable datasets_train datasets_test : list (image * label).

(** The order [Dataset.shuffle(buffer_size)] produces. *)
Variable shuffle : nat -> list (image * label) -> list (image * label).

Definition scale (example : image * label) : image * label :=
  let '(image, label) := example in
  (image_div image (of_nat 255), label).

Definition input_fn (mode : ModeKeys) (input_context : option InputContext)
    : option (list (list (image * label))) :=
  let mnist_dataset :=
    match mode with
    | TRAIN => datasets_train
    | _ => datasets_test
    end in
  let sharded :=
    match input_context with
    | Some ctx =>
        shard (num_input_pipelines ctx) (input_pipeline_id ctx) mnist_dataset
    | None => Some mnist_dataset
    end in
  match sharded with
  | Some mnist_dataset =>
      Some (dataset_batch BATCH_SIZE (shuffle BUFFER_SIZE (map scale mnist_dataset)))
  | None => None
  end.

Definition LEARNING_RATE : num := div (of_Z 1) (of_Z 10000).

Record EstimatorSpec : Type := {
  spec_predictions : option (list prediction);
  spec_loss : option num;
  spec_train_op : option (list num * nat)
}.

(** [model_fn].  The estimator owns the variables [w] and the global
    step; [all_reduce] is the sum over the workers that
    [optimizer.minimize] makes of the gradients.  In the mode [PREDICT]
    the code calls [EstimatorSpec(labels=labels, predictions=predictions)]:
    [EstimatorSpec] takes no [labels] and is given no [mode], the call
    raises [TypeError], here [None]. *)
Definition model_fn (w : list num) (global_step : nat)
    (all_reduce : list num -> list num)
    (features : list image) (labels : list label) (mode : ModeKeys)
    : option EstimatorSpec :=
  let logits := map (model w) features in
  match mode with
  | PREDICT => None
  | _ =>
      let loss := loss_object labels logits in
      let loss := mul (reduce_sum loss) (div one (of_nat BATCH_SIZE)) in
      match mode with
      | EVAL =>
          Some {| spec_predictions := None; spec_loss := Some loss;
                  spec_train_op := None |}
      | _ =>
          let gradients := tape_gradient BATCH_SIZE w features labels in
          let w' := map (fun gv => sub (snd gv) (mul LEARNING_RATE (fst gv)))
                        (combine (all_reduce gradients) w) in
          Some {| spec_predictions := None; spec_loss := Some loss;
                  spec_train_op := Some (w', S global_step) |}
      end
  end.

(** The examples the workers of the cluster process in training step
    [k]: the [k]-th batch of every worker's input pipeline. *)
Definition worker_batch (i k : nat) : list (image * label) :=
  match input_fn TRAIN (Some (worker_input_context i)) with
  | Some batches => nth k batches []
  | None => []
  end.

Definition step_examples (k : nat) : list (image * label) :=
  concat (map (fun i => worker_batch i k)
              (seq 0 (length TF_CONFIG_workers))).


End Estimator.
End MultiWorkerEstimator.

(** ** The batch sizes of the Keras notebooks *)

Module DistributedKeras.
(** Notebook 27. *)
Definition BUFFER_SIZE : nat := 10000.
Definition BATCH_SIZE_PER_REPLICA : nat := 64.
Definition BATCH_SIZE (strategy : MirroredStrategy) : nat :=
  BATCH_SIZE_PER_REPLICA * num_replicas_in_sync strategy.
End DistributedKeras.

Module SaveLoadDistributed.
(** [get_data] of "Save and load a model using a distribution strategy". *)
Definition BUFFER_SIZE : nat := 10000.
Definition BATCH_SIZE_PER_REPLICA : nat := 64.
Definition BATCH_SIZE (mirrored_strategy : MirroredStrategy) : nat :=
  BATCH_SIZE_PER_REPLICA * num_replicas_in_sync mirrored_strategy.
End SaveLoadDistributed.

(** ** Notions used in the statements *)

Section Notions.
Context {num : Type} {A : Arith num} {Net : Network num} {Opt : Optimizer num}.
Variable global_batch_size : nat.

(** All replicas hold the same variables and the same optimizer slots. *)
Definition mirrored (rs : list replica) : Prop :=
  exists r, rs = repeat r (length rs).

(** The loss of every example of a batch, for the variables [w]. *)
Definition per_example (w : list num) (x : batch) : list num :=
  map (fun xy => loss_fn (snd xy) (model w (fst xy))) x.

(** The values [SparseCategoricalAccuracy] adds for a batch. *)
Definition hits (w : list num) (x : batch) : list num :=
  map (fun xy => if hit (snd xy) (model w (fst xy)) then one else zero) x.

(** The scaled gradient of every example of a batch. *)
Definition scaled_gradients (w : list num) (x : batch) : list (list num) :=
  map (fun xy => vscale (div one (of_nat global_batch_size))
                        (grad_fn w (fst xy) (snd xy))) x.

(** What [train_step] returns and does, piece by piece. *)
Definition local_loss (r : replica) (x : batch) : num :=
  compute_loss global_batch_size (map snd x)
    (map (model (trainable_variables r)) (map fst x)).

Definition local_accuracy (accuracy : Metric num) (r : replica) (x : batch)
    : Metric num :=
  accuracy_update accuracy (map snd x)
    (map (model (trainable_variables r)) (map fst x)).

Definition apply_update (aggregated : list num) (r : replica) : replica :=
  let '(slots', variables') :=
    apply_gradients (optimizer_slots r)
      (combine aggregated (trainable_variables r)) in
  {| trainable_variables := variables'; optimizer_slots := slots' |}.

(** A training step without a distribution strategy: the gradients are
    applied as they are. *)
Definition plain_train_step (r : replica) (accuracy : Metric num)
    (inputs : batch) : replica * Metric num * num :=
  train_step global_batch_size (fun gradients => gradients) r accuracy inputs.
End Notions.

(** ** Data to run the code on *)

Definition rational (a : Z) (b : positive) : Qc := Q2Qc (a # b).

Definition one_device : MirroredStrategy := {| devices := ["GPU:0"%string] |}.

Definition two_devices : MirroredStrategy :=
  {| devices := ["GPU:0"%string; "GPU:1"%string] |}.

(** Four examples [(feature, label)] for [linear_regression], and their
    split over two replicas. *)
Definition sub_batch_a : list (Qc * Qc) :=
  [(rational 1 1, rational 1 1); (rational 2 1, rational 0 1)].

Definition sub_batch_b : list (Qc * Qc) :=
  [(rational 3 1, rational 9 1); (rational 0 1, rational 5 1)].

Definition full_batch : list (Qc * Qc) := sub_batch_a ++ sub_batch_b.

Definition initial_replica : replica (num := Qc) (Opt := Adam) :=
  create_model [rational 1 1; rational 2 1].

(** Twenty batches for one replica. *)
Definition twenty_batches : list (list (list (Qc * Qc))) :=
  map (fun k => [[(Qc_of_Z (Z.of_nat k), rational 1 1)]]) (seq 0 20).

(** A train split of 256 equal examples and a shuffle that keeps the
    order. *)
Definition constant_split : list (Qc * Qc) :=
  repeat (rational 255 1, rational 0 1) 256.

Definition keep_order (buffer_size : nat) (ds : list (Qc * Qc))
    : list (Qc * Qc) := ds.


(** Two replicas, one of which reads a non-finite feature. *)
Definition nan_inputs : list (list (xnum * xnum)) :=
  [[(Fin (rational 1 1), Fin (rational 1 1))];
   [(NaN, Fin (rational 1 1))]].

Definition nan_state : train_state (num := xnum) (Opt := Adam) :=
  scope_create two_devices [Fin (rational 1 1)].

(** ** Notebook 28: evaluation and the loop over the epochs *)

Section Evaluation.
Context {num : Type} {A : Arith num} {Net : Network num} {Opt : Optimizer num}.
Variable global_batch_size : nat.

(** The metrics of the test loop, [test_loss] a [tf.keras.metrics.Mean]. *)
Record test_metrics : Type := {
  test_loss : Metric num;
  test_accuracy : Metric num
}.

Definition new_test_metrics : test_metrics :=
  {| test_loss := new_metric; test_accuracy := new_metric |}.

(** [test_step]: the per-example losses go to [test_loss] as they are. *)
Definition test_step (r : replica) (m : test_metrics) (inputs : batch)
    : test_metrics :=
  let images := map fst inputs in
  let labels := map snd inputs in
  let predictions := map (model (trainable_variables r)) images in
  let t_loss := loss_object labels predictions in
  {| test_loss := update_state (test_loss m) t_loss;
     test_accuracy := accuracy_update (test_accuracy m) labels predictions |}.

(** [strategy.experimental_run_v2(test_step, args=(dataset_inputs,))]. *)
Definition distributed_test_step (rs : list replica) (m : test_metrics)
    (dataset_inputs : list batch) : test_metrics :=
  fold_left (fun m rx => test_step (fst rx) m (snd rx))
            (combine rs dataset_inputs) m.

(** [for x in test_dist_dataset: distributed_test_step(x)]. *)
Definition test_loop (rs : list replica) (m : test_metrics)
    (test_dist_dataset : list (list batch)) : test_metrics :=
  fold_left (fun m x => distributed_test_step rs m x) test_dist_dataset m.

(** What the loop prints at the end of an epoch. *)
Record report : Type := {
  report_epoch : nat;
  report_train_loss : num;
  report_train_accuracy : num;
  report_test_loss : num;
  report_test_accuracy : num
}.

Record run_state : Type := {
  run_training : train_state;
  run_metrics : test_metrics;
  run_save_counter : nat;
  run_directory : directory;
  run_log : list report
}.

(** The body of [for epoch in range(EPOCHS)]: the train loop, the test
    loop, a checkpoint when [epoch % 2 == 0], the report, and the reset of
    the three metrics.  [num_batches] is a Python integer: with no
    training batch [total_loss / num_batches] is [0.0 / 0] and raises
    [ZeroDivisionError], here [None], before the test loop and the
    checkpoint. *)
Definition run_epoch (checkpoint_prefix : String.string)
    (train_dist_dataset test_dist_dataset : list (list batch))
    (epoch : nat) (s : run_state) : option run_state :=
  let '(st, total_loss, num_batches) :=
    train_loop global_batch_size (run_training s) zero 0 train_dist_dataset in
  if num_batches =? 0 then None else
  let train_loss := div total_loss (of_nat num_batches) in
  let m := test_loop (replicas st) (run_metrics s) test_dist_dataset in
  let '(save_counter, dir) :=
    if epoch mod 2 =? 0
    then checkpoint_save (run_save_counter s) checkpoint_prefix st (run_directory s)
    else (run_save_counter s, run_directory s) in
  let line :=
    {| report_epoch := epoch + 1;
       report_train_loss := train_loss;
       report_train_accuracy := mul (result (train_accuracy st)) (of_Z 100);
       report_test_loss := result (test_loss m);
       report_test_accuracy := mul (result (test_accuracy m)) (of_Z 100) |} in
  Some {| run_training :=
            {| replicas := replicas st;
               train_accuracy := reset_states (train_accuracy st) |};
          run_metrics :=
            {| test_loss := reset_states (test_loss m);
               test_accuracy := reset_states (test_accuracy m) |};
          run_save_counter := save_counter;
          run_directory := dir;
          run_log := run_log s ++ [line] |}.

(** The epochs [epoch, epoch + 1, ..., epoch + n - 1]; the training set is
    shuffled anew for every epoch, [train_data e] is its order in epoch
    [e].  An epoch that raises ends the program. *)
Fixpoint run_epochs (checkpoint_prefix : String.string)
    (train_data : nat -> list (list batch))
    (test_dist_dataset : list (list batch))
    (epoch n : nat) (s : run_state) : option run_state :=
  match n with
  | O => Some s
  | S n' =>
      match run_epoch checkpoint_prefix (train_data epoch) test_dist_dataset
                      epoch s with
      | Some s' =>
          run_epochs checkpoint_prefix train_data test_dist_dataset
                     (S epoch) n' s'
      | None => None
      end
  end.

Definition training_run (checkpoint_prefix : String.string)
    (train_data : nat -> list (list batch))
    (test_dist_dataset : list (list batch)) (s : run_state)
    : option run_state :=
  run_epochs checkpoint_prefix train_data test_dist_dataset 0 EPOCHS s.

(** The state the notebook starts from. *)
Definition initial_run (strategy : MirroredStrategy) (w0 : list num)
    : run_state :=
  {| run_training := scope_create strategy w0;
     run_metrics := new_test_metrics;
     run_save_counter := 0;
     run_directory := [];
     run_log := [] |}.

(** What [checkpoint_save] writes for a replica. *)
Definition snapshot_of (r : replica) : Snapshot :=
  {| saved_variables := trainable_variables r;
     saved_slots := Some (optimizer_slots r) |}.
End Evaluation.

(** ** "Custom training: basics": a linear model fitted by hand *)

Module Basics.
Section Basics.
Context {num : Type} {A : Arith num}.

(** Element-wise operations on two rank-1 tensors: equal shapes, or one of
    them with a single entry that is broadcast; other shapes are an
    error. *)
Definition broadcast (a b : list num) : option (list (num * num)) :=
  if length a =? length b then Some (combine a b)
  else match a, b with
       | [x], _ => Some (map (fun y => (x, y)) b)
       | _, [y] => Some (map (fun x => (x, y)) a)
       | _, _ => None
       end.

Definition square (x : num) : num := mul x x.

(** [class Model]: [W] starts at 5.0 and [b] at 0.0. *)
Record Model : Type := { W : num; b : num }.

Definition new_Model : Model := {| W := of_Z 5; b := zero |}.

(** [__call__] on a number and on a tensor. *)
Definition call1 (model : Model) (x : num) : num :=
  add (mul (W model) x) (b model).

Definition call (model : Model) (x : list num) : list num :=
  map (call1 model) x.

(** [loss]: [tf.reduce_mean(tf.square(predicted_y - target_y))]. *)
Definition loss (predicted_y target_y : list num) : option num :=
  match broadcast predicted_y target_y with
  | Some pairs =>
      Some (reduce_mean (map (fun pt => square (sub (fst pt) (snd pt))) pairs))
  | None => None
  end.

(** The gradients [t.gradient(current_loss, [model.W, model.b])] of the
    loss of [model(inputs)] against [outputs]: the mean over the examples
    of [2 * (W * x + b - y) * x] and of [2 * (W * x + b - y)]. *)
Definition residual (model : Model) (xy : num * num) : num :=
  sub (call1 model (fst xy)) (snd xy).

Definition gradient_W (model : Model) (examples : list (num * num)) : num :=
  reduce_mean (map (fun xy => mul (mul (of_Z 2) (residual model xy)) (fst xy))
                   examples).

Definition gradient_b (model : Model) (examples : list (num * num)) : num :=
  reduce_mean (map (fun xy => mul (of_Z 2) (residual model xy)) examples).

(** [train]: one step of gradient descent, [assign_sub] on both
    variables. *)
Definition train (model : Model) (inputs outputs : list num)
    (learning_rate : num) : option Model :=
  match broadcast inputs outputs with
  | Some examples =>
      let dW := gradient_W model examples in
      let db := gradient_b model examples in
      Some {| W := sub (W model) (mul learning_rate dW);
              b := sub (b model) (mul learning_rate db) |}
  | None => None
  end.

(** The loop over the epochs: it records [W] and [b] before every step,
    with the current loss, and trains with [learning_rate=0.1]. *)
Record history : Type := {
  Ws : list num;
  bs : list num;
  losses : list num
}.

Fixpoint training_loop (epochs : nat) (model : Model) (h : history)
    (inputs outputs : list num) : option (Model * history) :=
  match epochs with
  | O => Some (model, h)
  | S epochs' =>
      match loss (call model inputs) outputs,
            train model inputs outputs (div (of_Z 1) (of_Z 10)) with
      | Some current_loss, Some model' =>
          training_loop epochs' model'
            {| Ws := Ws h ++ [W model];
               bs := bs h ++ [b model];
               losses := losses h ++ [current_loss] |}
            inputs outputs
      | _, _ => None
      end
  end.

Definition empty_history : history := {| Ws := []; bs := []; losses := [] |}.
End Basics.
End Basics.

(** ** Notebook 27: the learning rate schedule *)

Module LearningRate.
(** [decay(epoch)], given to [LearningRateScheduler]. *)
Definition decay {num : Type} {A : Arith num} (epoch : nat) : num :=
  if epoch <? 3 then div (of_Z 1) (of_Z 1000)
  else if (3 <=? epoch) && (epoch <? 7) then div (of_Z 1) (of_Z 10000)
  else div (of_Z 1) (of_Z 100000).
End LearningRate.

(** ** "Load text": labelled lines, the split and the padded batches *)

Module LoadText.
Definition FILE_NAMES : list String.string :=
  ["cowper.txt"%string; "derby.txt"%string; "butler.txt"%string].

Definition BUFFER_SIZE : nat := 50000.
Definition BATCH_SIZE : nat := 64.
Definition TAKE_SIZE : nat := 5000.

Section LoadText.
Variable X : Type.

(** [labeler(example, index)]; the label is cast to [tf.int64]. *)
Definition labeler (example : X) (index : nat) : X * Z :=
  (example, Z.of_nat index).

(** [enumerate]. *)
Fixpoint enumerate_from (Y : Type) (i : nat) (l : list Y) : list (nat * Y) :=
  match l with
  | [] => []
  | y :: l' => (i, y) :: enumerate_from (S i) l'
  end.

(** The loop over [enumerate(FILE_NAMES)]: the lines of every file, each
    with the index of the file.  [read_lines] is the content of
    [tf.data.TextLineDataset]. *)
Definition labeled_data_sets (file_names : list String.string)
    (read_lines : String.string -> list X) : list (list (X * Z)) :=
  map (fun ifn => map (fun ex => labeler ex (fst ifn)) (read_lines (snd ifn)))
      (enumerate_from 0 file_names).

(** [all_labeled_data]: the first dataset, the others concatenated to it,
    then one shuffle ([reshuffle_each_iteration=False]).  [sets[0]] on an
    empty list is an error. *)
Definition all_labeled_data (shuffle : nat -> list (X * Z) -> list (X * Z))
    (sets : list (list (X * Z))) : option (list (X * Z)) :=
  match sets with
  | [] => None
  | first :: others =>
      Some (shuffle BUFFER_SIZE
              (fold_left (fun all labeled_dataset => all ++ labeled_dataset)
                         others first))
  end.
End LoadText.

(** [padded_batch(batch_size, padded_shapes=([-1],[]))]: batches of
    consecutive examples; in a batch every text is filled with zeros up to
    the longest text of the batch. *)
Definition pad_to (n : nat) (text : list Z) : list Z :=
  text ++ repeat 0%Z (n - length text).

Definition pad (examples : list (list Z * Z)) : list (list Z) * list Z :=
  let longest := list_max (map (fun e => length (fst e)) examples) in
  (map (fun e => pad_to longest (fst e)) examples, map snd examples).

Definition padded_batch (batch_size : nat) (ds : list (list Z * Z))
    : list (list (list Z) * list Z) :=
  map pad (MultiWorkerEstimator.dataset_batch batch_size ds).

(** The split: [skip(TAKE_SIZE)], shuffled and batched, for training and
    [take(TAKE_SIZE)], batched, for testing. *)
Definition train_data (shuffle : nat -> list (list Z * Z) -> list (list Z * Z))
    (all_encoded_data : list (list Z * Z)) : list (list (list Z) * list Z) :=
  padded_batch BATCH_SIZE (shuffle BUFFER_SIZE (skipn TAKE_SIZE all_encoded_data)).

Definition test_data (all_encoded_data : list (list Z * Z))
    : list (list (list Z) * list Z) :=
  padded_batch BATCH_SIZE (firstn TAKE_SIZE all_encoded_data).
End LoadText.

(** * Properties *)

(** ** Lists *)

Lemma combine_fst_snd (X Y : Type) (l : list (X * Y)) :
  combine (map fst l) (map snd l) = l.
Proof.
  induction l as [|[x y] l IH]; simpl; [reflexivity|]. now rewrite IH.
Qed.

Lemma skipn_cons_inv (X : Type) (k : nat) (l : list X) (a : X) (t : list X) :
  skipn k l = a :: t -> skipn (S k) l = t /\ firstn k l ++ a :: t = l.
Proof.
  revert l. induction k as [|k IH]; intros l H.
  - simpl in H. subst l. split; reflexivity.
  - destruct l as [|b l]; [discriminate|].
    simpl in H. destruct (IH l H) as [H1 H2]. split.
    + exact H1.
    + simpl. now rewrite H2.
Qed.

Lemma combine_repeat (X Y : Type) (r : X) (xs : list Y) :
  combine (repeat r (length xs)) xs = map (pair r) xs.
Proof. induction xs as [|x xs IH]; simpl; [reflexivity|]. now rewrite IH. Qed.

Lemma map_const_repeat (X Y : Type) (c : Y) (xs : list X) :
  map (fun _ => c) xs = repeat c (length xs).
Proof. induction xs as [|x xs IH]; simpl; [reflexivity|]. now rewrite IH. Qed.

Lemma fold_left_map_arg (X Y Z : Type) (f : Z -> Y -> Z) (g : X -> Y)
    (l : list X) : forall a,
  fold_left f (map g l) a = fold_left (fun a x => f a (g x)) l a.
Proof. induction l as [|x l IH]; intros a; simpl; [reflexivity|]. apply IH. Qed.

(** ** The step, for any arithmetic *)

Section StepLemmas.
Context {num : Type} {A : Arith num} {Net : Network num} {Opt : Optimizer num}.
Variable G : nat.

Lemma train_step_eq (all_reduce : list num -> list num) (r : replica)
    (acc : Metric num) (x : batch) :
  train_step G all_reduce r acc x =
  (apply_update (all_reduce (replica_gradients G r x)) r,
   local_accuracy acc r x, local_loss G r x).
Proof.
  unfold train_step, apply_update, replica_gradients, local_accuracy, local_loss.
  destruct (apply_gradients _ _) as [s' v']. reflexivity.
Qed.

(** At the reduction every replica reads the sum of what all replicas
    brought. *)
Lemma run_replicas_eq (rxs : list (replica * batch)) : forall k gs acc,
  skipn k gs = map (fun rx => replica_gradients G (fst rx) (snd rx)) rxs ->
  run_replicas G k gs rxs acc =
  (map (fun rx => apply_update
                    (add_n (length (trainable_variables (fst rx))) gs) (fst rx))
       rxs,
   fold_left (fun a rx => local_accuracy a (fst rx) (snd rx)) rxs acc,
   map (fun rx => local_loss G (fst rx) (snd rx)) rxs).
Proof.
  induction rxs as [|[r x] rest IH]; intros k gs acc H; simpl.
  - reflexivity.
  - simpl in H. apply skipn_cons_inv in H. destruct H as [Hs Hf].
    rewrite train_step_eq. rewrite (IH (S k) gs _ Hs).
    unfold all_reduce_sum. rewrite Hs, Hf. reflexivity.
Qed.

Lemma experimental_run_v2_eq (rs : list replica) (xs : list batch)
    (acc : Metric num) :
  experimental_run_v2 G rs xs acc =
  let rxs := combine rs xs in
  let gs := map (fun rx => replica_gradients G (fst rx) (snd rx)) rxs in
  (map (fun rx => apply_update
                    (add_n (length (trainable_variables (fst rx))) gs) (fst rx))
       rxs,
   fold_left (fun a rx => local_accuracy a (fst rx) (snd rx)) rxs acc,
   map (fun rx => local_loss G (fst rx) (snd rx)) rxs).
Proof.
  unfold experimental_run_v2. apply run_replicas_eq. reflexivity.
Qed.

(** The step on mirrored replicas: one update, computed on every replica
    from the same sum and the same prior state. *)
Lemma mirrored_step_any (r : replica) (acc : Metric num) (xs : list batch) :
  distributed_train_step G
    {| replicas := repeat r (length xs); train_accuracy := acc |} xs =
  ({| replicas :=
        repeat (apply_update
                  (add_n (length (trainable_variables r))
                         (map (replica_gradients G r) xs)) r)
               (length xs);
      train_accuracy := fold_left (fun a x => local_accuracy a r x) xs acc |},
   reduce_sum (map (local_loss G r) xs)).
Proof.
  unfold distributed_train_step. cbn [replicas train_accuracy].
  rewrite experimental_run_v2_eq. cbv zeta.
  rewrite combine_repeat. rewrite !map_map. cbn [fst snd].
  rewrite map_const_repeat, fold_left_map_arg. reflexivity.
Qed.

Lemma loss_object_batch (w : list num) (x : batch) :
  loss_object (map snd x) (map (model w) (map fst x)) = per_example w x.
Proof.
  unfold loss_object, per_example.
  induction x as [|[i l] x IH]; simpl; [reflexivity|]. now rewrite IH.
Qed.

Lemma accuracy_update_batch (m : Metric num) (w : list num) (x : batch) :
  accuracy_update m (map snd x) (map (model w) (map fst x)) =
  update_state m (hits w x).
Proof.
  unfold accuracy_update, hits. f_equal.
  induction x as [|[i l] x IH]; simpl; [reflexivity|]. now rewrite IH.
Qed.

Lemma tape_gradient_batch (w : list num) (x : batch) :
  tape_gradient G w (map fst x) (map snd x) =
  add_n (length w) (scaled_gradients G w x).
Proof. unfold tape_gradient. now rewrite combine_fst_snd. Qed.

Lemma scaled_gradients_length (w : list num) (x : batch) :
  Forall (fun t => length t = length w) (scaled_gradients G w x).
Proof.
  unfold scaled_gradients. apply Forall_forall. intros t Ht.
  apply in_map_iff in Ht. destruct Ht as [xy [<- _]].
  unfold vscale. rewrite length_map. apply grad_fn_length.
Qed.

Lemma mirrored_repeat (r : replica) (n : nat) : mirrored (repeat r n).
Proof. exists r. now rewrite repeat_length. Qed.

Lemma step_keeps_mirrored (st : train_state) (xs : list batch) :
  mirrored (replicas st) -> length xs = length (replicas st) ->
  mirrored (replicas (fst (distributed_train_step G st xs))) /\
  length (replicas (fst (distributed_train_step G st xs))) =
  length (replicas st).
Proof.
  destruct st as [rs acc]. cbn [replicas]. intros [r Hr] Hlen.
  rewrite Hr, <- Hlen. rewrite mirrored_step_any. cbn [fst replicas].
  split; [apply mirrored_repeat|]. now rewrite !repeat_length.
Qed.
End StepLemmas.

(** ** Exact arithmetic *)

Ltac qc := cbn [add sub mul div zero one of_Z Qc_arith] in *.

Lemma Qc_of_Z_add (a b : Z) : Qc_of_Z (a + b) = (Qc_of_Z a + Qc_of_Z b)%Qc.
Proof.
  apply Qc_is_canon. unfold Qc_of_Z, Qcplus, Q2Qc. cbn [this].
  rewrite !Qred_correct. rewrite inject_Z_plus. reflexivity.
Qed.

Lemma Qc_of_Z_zero (z : Z) : Qc_of_Z z = 0%Qc -> z = 0%Z.
Proof.
  intros H. assert (E : (inject_Z z == 0)%Q).
  { rewrite <- (Qred_correct (inject_Z z)).
    change (Qred (inject_Z z)) with (this (Qc_of_Z z)). now rewrite H. }
  unfold Qeq in E. simpl in E. lia.
Qed.

Lemma Qc_of_Z_inj (a b : Z) : Qc_of_Z a = Qc_of_Z b -> a = b.
Proof.
  intros H. assert (E : Qc_of_Z (a - b) = 0%Qc).
  { replace (a - b)%Z with (a + - b)%Z by lia. rewrite Qc_of_Z_add, H.
    rewrite <- Qc_of_Z_add. now replace (b + - b)%Z with 0%Z by lia. }
  apply Qc_of_Z_zero in E. lia.
Qed.

Lemma of_nat_add (a b : nat) :
  of_nat (a + b) = add (of_nat (num := Qc) a) (of_nat b).
Proof. unfold of_nat. qc. rewrite Nat2Z.inj_add. apply Qc_of_Z_add. Qed.

Lemma reduce_sum_app (a b : list Qc) :
  reduce_sum (a ++ b) = add (reduce_sum a) (reduce_sum b).
Proof.
  induction a as [|x a IH]; simpl.
  - qc. ring.
  - rewrite IH. qc. ring.
Qed.

Lemma reduce_sum_single (l : Qc) : reduce_sum [l] = l.
Proof. cbn [reduce_sum fold_right]. qc. ring. Qed.

Lemma compute_average_loss_app (a b : list Qc) (G : nat) :
  compute_average_loss (a ++ b) G =
  add (compute_average_loss a G) (compute_average_loss b G).
Proof. unfold compute_average_loss. rewrite reduce_sum_app. qc. ring. Qed.

Lemma compute_average_loss_concat (ls : list (list Qc)) (G : nat) :
  reduce_sum (map (fun l => compute_average_loss l G) ls) =
  compute_average_loss (concat ls) G.
Proof.
  induction ls as [|l ls IH]; cbn [concat map].
  - unfold compute_average_loss. simpl. qc. ring.
  - rewrite compute_average_loss_app, <- IH. reflexivity.
Qed.

Lemma compute_average_loss_div (l : list Qc) (G : nat) :
  compute_average_loss l G = div (reduce_sum l) (of_nat G).
Proof. unfold compute_average_loss. qc. unfold Qcdiv. ring. Qed.

Lemma vadd_length (a b : list Qc) :
  length (vadd a b) = Nat.min (length a) (length b).
Proof.
  revert b. induction a as [|x a IH]; intros [|y b]; simpl; auto.
Qed.

Lemma vadd_zero_l (v : list Qc) : vadd (repeat zero (length v)) v = v.
Proof.
  induction v as [|x v IH]; cbn [vadd repeat length]; [reflexivity|].
  rewrite IH. f_equal. qc. ring.
Qed.

Lemma vadd_zero_r (v : list Qc) : vadd v (repeat zero (length v)) = v.
Proof.
  induction v as [|x v IH]; cbn [vadd repeat length]; [reflexivity|].
  rewrite IH. f_equal. qc. ring.
Qed.

Lemma vadd_assoc (a b c : list Qc) : vadd (vadd a b) c = vadd a (vadd b c).
Proof.
  revert b c. induction a as [|x a IH]; intros [|y b] [|z c]; cbn [vadd]; auto.
  rewrite IH. f_equal. qc. ring.
Qed.

Lemma add_n_length (n : nat) (ts : list (list Qc)) :
  Forall (fun t => length t = n) ts -> length (add_n n ts) = n.
Proof.
  unfold add_n. induction 1 as [|t ts Ht _ IH]; cbn [fold_right].
  - apply repeat_length.
  - rewrite vadd_length, IH, Ht. apply Nat.min_id.
Qed.

Lemma add_n_app (n : nat) (ts1 ts2 : list (list Qc)) :
  Forall (fun t => length t = n) ts2 ->
  add_n n (ts1 ++ ts2) = vadd (add_n n ts1) (add_n n ts2).
Proof.
  intros H2. induction ts1 as [|t ts1 IH]; cbn [app].
  - assert (Hl := add_n_length H2).
    change (add_n n []) with (repeat (zero (num := Qc)) n).
    rewrite <- Hl at 2. symmetry. apply vadd_zero_l.
  - unfold add_n in *. cbn [fold_right]. rewrite IH. now rewrite vadd_assoc.
Qed.

Lemma add_n_concat (n : nat) (tss : list (list (list Qc))) :
  Forall (Forall (fun t => length t = n)) tss ->
  add_n n (concat tss) = add_n n (map (add_n n) tss).
Proof.
  induction 1 as [|ts tss Hts Htss IH]; cbn [concat map]; [reflexivity|].
  rewrite add_n_app.
  - rewrite IH. reflexivity.
  - apply Forall_concat. exact Htss.
Qed.

Lemma add_n_single (n : nat) (g : list Qc) : length g = n -> add_n n [g] = g.
Proof. intros <-. unfold add_n. cbn [fold_right]. apply vadd_zero_r. Qed.

Lemma update_state_nil (m : Metric Qc) : update_state m [] = m.
Proof.
  destruct m as [t c]. unfold update_state.
  cbn [total count length reduce_sum fold_right].
  f_equal; unfold of_nat; qc; [ring|].
  change (Qc_of_Z (Z.of_nat 0)) with 0%Qc. ring.
Qed.

Lemma update_state_app (m : Metric Qc) (v1 v2 : list Qc) :
  update_state (update_state m v1) v2 = update_state m (v1 ++ v2).
Proof.
  unfold update_state. cbn [total count].
  rewrite reduce_sum_app, length_app, of_nat_add. f_equal; qc; ring.
Qed.

Section ExactStep.
Context {Net : Network Qc} {Opt : Optimizer Qc}.
Variable G : nat.

Lemma replica_gradients_length (r : replica) (x : batch) :
  length (replica_gradients G r x) = length (trainable_variables r).
Proof.
  unfold replica_gradients. rewrite tape_gradient_batch.
  apply add_n_length. apply scaled_gradients_length.
Qed.

(** Summing the gradients of the sub-batches gives the gradient of the
    whole batch. *)
Lemma replica_gradients_concat (r : replica) (subs : list batch) :
  add_n (length (trainable_variables r)) (map (replica_gradients G r) subs) =
  replica_gradients G r (concat subs).
Proof.
  unfold replica_gradients.
  rewrite tape_gradient_batch. unfold scaled_gradients at 1.
  rewrite concat_map. rewrite add_n_concat.
  - rewrite map_map. f_equal. apply map_ext. intros x.
    now rewrite tape_gradient_batch.
  - apply Forall_forall. intros ts Hts. apply in_map_iff in Hts.
    destruct Hts as [x [<- _]]. apply (scaled_gradients_length G).
Qed.

Lemma local_loss_concat (r : replica) (subs : list batch) :
  reduce_sum (map (local_loss G r) subs) = local_loss G r (concat subs).
Proof.
  unfold local_loss, compute_loss. rewrite loss_object_batch.
  unfold per_example at 1. rewrite concat_map.
  rewrite <- compute_average_loss_concat. rewrite map_map. f_equal.
  apply map_ext. intros x. now rewrite loss_object_batch.
Qed.

Lemma local_accuracy_concat (r : replica) (subs : list batch) :
  forall acc,
  fold_left (fun a x => local_accuracy a r x) subs acc =
  local_accuracy acc r (concat subs).
Proof.
  unfold local_accuracy.
  induction subs as [|x subs IH]; intros acc; cbn [fold_left concat].
  - rewrite accuracy_update_batch. cbn [hits map]. now rewrite update_state_nil.
  - rewrite IH. rewrite !accuracy_update_batch. rewrite update_state_app.
    unfold hits. now rewrite map_app.
Qed.

Lemma mirrored_step (r : replica) (acc : Metric Qc) (subs : list batch) :
  distributed_train_step G
    {| replicas := repeat r (length subs); train_accuracy := acc |} subs =
  ({| replicas :=
        repeat (apply_update (replica_gradients G r (concat subs)) r)
               (length subs);
      train_accuracy := local_accuracy acc r (concat subs) |},
   local_loss G r (concat subs)).
Proof.
  rewrite mirrored_step_any, replica_gradients_concat,
    local_accuracy_concat, local_loss_concat. reflexivity.
Qed.
End ExactStep.

(** ** Sharding a dataset *)

Import MultiWorkerEstimator.

Section ShardLemmas.
Variable X : Type.


(** Inserting [x] in the bucket [j] of a family of buckets. *)
Lemma concat_insert (f : nat -> list X) (j : nat) (x : X) (idx : list nat) :
  NoDup idx -> In j idx ->
  Permutation (concat (map (fun i => if j =? i then x :: f i else f i) idx))
              (x :: concat (map f idx)).
Proof.
  induction 1 as [|i idx Hni Hnd IH]; intros Hin; [destruct Hin|].
  cbn [map concat]. destruct Hin as [->|Hin].
  - rewrite Nat.eqb_refl. cbn [app]. apply perm_skip.
    apply Permutation_app_head.
    assert (E : map (fun i => if j =? i then x :: f i else f i) idx = map f idx).
    { apply map_ext_in. intros k Hk. destruct (Nat.eqb_spec j k) as [->|_]; [contradiction|reflexivity]. }
    now rewrite E.
  - destruct (Nat.eqb_spec j i) as [->|_]; [contradiction|].
    eapply Permutation_trans.
    + apply Permutation_app_head. apply IH. exact Hin.
    + apply Permutation_sym. apply Permutation_middle.
Qed.

Lemma shards_permutation (n : nat) (ds : list X) : 0 < n -> forall pos,
  Permutation (concat (map (fun i => shard_from n i pos ds) (seq 0 n))) ds.
Proof.
  intros Hn. induction ds as [|x ds IH]; intros pos.
  - cbn [shard_from]. induction (seq 0 n); simpl; auto.
  - cbn [shard_from].
    eapply Permutation_trans.
    + apply (concat_insert (fun i => shard_from n i (S pos) ds) (pos mod n) x (idx:=seq 0 n)).
      * apply seq_NoDup.
      * apply in_seq. split; [lia|]. simpl. apply Nat.mod_upper_bound. lia.
    + apply perm_skip. apply IH.
Qed.

End ShardLemmas.

(** ** The claims *)

(** C2.  One training step with [R] mirrored replicas on the sub-batches
    of a global batch gives every replica the variables and optimizer
    slots that one step with a single replica gives on the whole batch,
    the same accuracy accumulator and the same loss, for every split of
    the batch into [R] sub-batches in order (so also for the equal split
    when [R] divides the batch size).  With one replica the distributed
    step is the training step without a strategy. *)
Theorem replicated_step_equals_single_replica_step
    (Net : Network Qc) (Opt : Optimizer Qc) (G R : nat)
    (r : replica) (acc : Metric Qc) (full : batch) (subs : list batch) :
  length subs = R -> concat subs = full ->
  let replicated :=
    distributed_train_step G
      {| replicas := repeat r R; train_accuracy := acc |} subs in
  let single :=
    distributed_train_step G
      {| replicas := [r]; train_accuracy := acc |} [full] in
  exists r',
    replicas (fst single) = [r'] /\
    replicas (fst replicated) = repeat r' R /\
    train_accuracy (fst replicated) = train_accuracy (fst single) /\
    snd replicated = snd single /\
    plain_train_step G r acc full = (r', train_accuracy (fst single), snd single).
Proof.
  intros <- <-. cbv zeta.
  rewrite (mirrored_step G r acc subs).
  assert (E := mirrored_step G r acc [concat subs : batch]).
  cbn [concat length repeat] in E. rewrite app_nil_r in E. rewrite E.
  cbn [fst snd replicas train_accuracy].
  exists (apply_update (replica_gradients G r (concat subs)) r).
  repeat split.
  unfold plain_train_step. now rewrite train_step_eq.
Qed.

Lemma replicated_step_example :
  (length [sub_batch_a; sub_batch_b] = 2 /\
   concat [sub_batch_a; sub_batch_b] = full_batch) /\
  exists r',
    replicas (fst (distributed_train_step (Net := linear_regression) 4
                     {| replicas := [initial_replica];
                        train_accuracy := new_metric |} [full_batch])) = [r'] /\
    replicas (fst (distributed_train_step (Net := linear_regression) 4
                     {| replicas := repeat initial_replica 2;
                        train_accuracy := new_metric |}
                     [sub_batch_a; sub_batch_b])) = repeat r' 2.
Proof.
  split; [split; reflexivity|].
  destruct (@replicated_step_equals_single_replica_step linear_regression Adam 4 2
              initial_replica new_metric full_batch [sub_batch_a; sub_batch_b]
              eq_refl eq_refl) as [r' [H1 [H2 _]]].
  exists r'. split; assumption.
Defined.

(** C3.  For every split of a global batch of [G] examples into
    per-replica sub-batches, even or uneven, the sum over the replicas of
    the scaled losses is the average loss over the whole batch: for loss
    tensors, and for the loss [distributed_train_step] returns. *)
Theorem summed_scaled_losses_equal_global_average
    (Net : Network Qc) (Opt : Optimizer Qc) (G : nat)
    (per_replica_losses : list (list Qc))
    (r : replica) (acc : Metric Qc) (subs : list batch) :
  length (concat per_replica_losses) = G ->
  length (concat subs) = G ->
  strategy_reduce SUM
    (map (fun per_example_loss => compute_average_loss per_example_loss G)
         per_replica_losses) =
  reduce_mean (concat per_replica_losses) /\
  snd (distributed_train_step G
         {| replicas := repeat r (length subs); train_accuracy := acc |} subs) =
  reduce_mean (per_example (trainable_variables r) (concat subs)).
Proof.
  intros H1 H2. split.
  - cbn [strategy_reduce]. rewrite compute_average_loss_concat.
    rewrite compute_average_loss_div. unfold reduce_mean. now rewrite H1.
  - rewrite (mirrored_step G r acc subs). cbn [snd]. unfold local_loss, compute_loss.
    rewrite loss_object_batch, compute_average_loss_div. unfold reduce_mean.
    unfold per_example. now rewrite length_map, H2.
Qed.

Lemma loss_scaling_scenario :
  (length (concat [[rational 2 1; rational 3 1]; [rational 4 1; rational 5 1]]) = 4 /\
   length (concat [sub_batch_a; sub_batch_b]) = 4) /\
  strategy_reduce SUM
    (map (fun per_example_loss => compute_average_loss per_example_loss 4)
         [[rational 2 1; rational 3 1]; [rational 4 1; rational 5 1]]) =
  reduce_mean (concat [[rational 2 1; rational 3 1]; [rational 4 1; rational 5 1]]) /\
  compute_average_loss [rational 2 1; rational 3 1] 4 = rational 5 4 /\
  compute_average_loss [rational 4 1; rational 5 1] 4 = rational 9 4 /\
  reduce_mean [rational 2 1; rational 3 1; rational 4 1; rational 5 1] =
  rational 7 2.
Proof.
  split; [split; reflexivity|].
  split.
  - destruct (@summed_scaled_losses_equal_global_average linear_regression Adam 4
                [[rational 2 1; rational 3 1]; [rational 4 1; rational 5 1]]
                initial_replica new_metric [sub_batch_a; sub_batch_b]
                eq_refl eq_refl) as [H _].
    exact H.
  - repeat split; apply Qc_is_canon; vm_compute; reflexivity.
Defined.

(** C7.  After every completed training step all replicas hold the same
    variables and the same optimizer slots: from a mirrored state, and
    through any number of steps of the training loop, the state stays
    mirrored and no replica is lost.  Every replica computes its update
    itself, from the same summed gradient and its own prior state
    ([mirrored_step_any]); no value is broadcast. *)
Theorem mirrored_after_every_step
    (num : Type) (A : Arith num) (Net : Network num) (Opt : Optimizer num)
    (G : nat) (train_dist_dataset : list (list batch)) :
  forall (st : train_state) (total_loss : num) (num_batches : nat),
  mirrored (replicas st) ->
  Forall (fun x => length x = length (replicas st)) train_dist_dataset ->
  let st' := fst (fst (train_loop G st total_loss num_batches train_dist_dataset)) in
  mirrored (replicas st') /\ length (replicas st') = length (replicas st).
Proof.
  induction train_dist_dataset as [|x rest IH]; intros st total_loss num_batches Hm Hl.
  - cbn. split; [exact Hm|reflexivity].
  - inversion Hl as [|? ? Hx Hrest]; subst.
    destruct (step_keeps_mirrored G st x Hm Hx) as [Hm' Hlen'].
    cbn [train_loop].
    destruct (distributed_train_step G st x) as [st1 loss] eqn:E.
    cbn [fst] in Hm', Hlen'.
    rewrite <- Hlen' in Hrest.
    destruct (IH st1 (add total_loss loss) (S num_batches) Hm' Hrest) as [H1 H2].
    cbv zeta in *. split; [exact H1|]. now rewrite H2.
Qed.

Lemma mirrored_after_two_steps :
  (mirrored (replicas (scope_create (Opt := Adam) two_devices [rational 1 1])) /\
   Forall (fun x => length x = length (replicas (scope_create (Opt := Adam) two_devices [rational 1 1])))
          [[sub_batch_a; sub_batch_b]; [sub_batch_b; sub_batch_a]]) /\
  mirrored (replicas (fst (fst (train_loop (Net := linear_regression) 4
      (scope_create (Opt := Adam) two_devices [rational 1 1]) zero 0
      [[sub_batch_a; sub_batch_b]; [sub_batch_b; sub_batch_a]])))).
Proof.
  assert (Hm : mirrored (replicas (scope_create (Opt := Adam) two_devices [rational 1 1]))).
  { eexists. reflexivity. }
  assert (Hl : Forall (fun x : list (list (Qc * Qc)) => length x = length (replicas (scope_create (Opt := Adam) two_devices [rational 1 1])))
          [[sub_batch_a; sub_batch_b]; [sub_batch_b; sub_batch_a]]).
  { repeat constructor. }
  split; [split; [exact Hm|exact Hl]|].
  exact (proj1 (@mirrored_after_every_step Qc _ linear_regression Adam 4 _ _ zero 0 Hm Hl)).
Defined.

Lemma of_nat_S_nonzero (n : nat) : of_nat (num := Qc) (S n) <> zero.
Proof.
  unfold of_nat. qc. intros H. apply Qc_of_Z_zero in H. lia.
Qed.

Lemma Qc_add_cancel (c k : Qc) : (c + k)%Qc = c -> k = 0%Qc.
Proof. intros H. replace k with ((c + k) - c)%Qc by ring. rewrite H. ring. Qed.

(** C4, as stated, fails: [train_step] does not leave the shared state
    alone.  On the four examples of [full_batch] the accuracy accumulator
    it returns differs from the one it was given. *)
Lemma train_step_changes_shared_state :
  ~ (let '(r', accuracy', _) :=
       train_step (Net := linear_regression) 4 (fun g => g)
                  initial_replica new_metric full_batch in
     r' = initial_replica /\ accuracy' = new_metric).
Proof.
  intros H.
  destruct (train_step (Net := linear_regression) 4 (fun g => g)
              initial_replica new_metric full_batch) as [[r' a'] l] eqn:E.
  destruct H as [_ Ha].
  apply (f_equal (fun p => this (count (snd (fst p))))) in E.
  cbn [fst snd] in E. rewrite Ha in E. vm_compute in E. discriminate E.
Qed.

(** C4, amended.  [train_step] returns the scaled loss alone.  The loss and
    the gradient it computes are local: they depend on the sub-batch and on
    the replica's current variables only, not on the optimizer slots, the
    accumulator or the other replicas.  The step also has effects: the
    replica's variables and slots become what the optimizer gives for the
    reduced gradients, and the accuracy accumulator counts the examples of
    the sub-batch, so it changes whenever the sub-batch is not empty. *)
Theorem train_step_effects
    (Net : Network Qc) (Opt : Optimizer Qc) (G : nat)
    (all_reduce all_reduce' : list Qc -> list Qc)
    (r r' : replica) (accuracy accuracy' : Metric Qc) (inputs : batch) :
  trainable_variables r = trainable_variables r' ->
  let '(r1, accuracy1, loss1) := train_step G all_reduce r accuracy inputs in
  let '(r2, accuracy2, loss2) := train_step G all_reduce' r' accuracy' inputs in
  loss1 = loss2 /\
  loss1 = compute_average_loss (per_example (trainable_variables r) inputs) G /\
  replica_gradients G r inputs = replica_gradients G r' inputs /\
  (optimizer_slots r1, trainable_variables r1) =
    apply_gradients (optimizer_slots r)
      (combine (all_reduce (replica_gradients G r inputs)) (trainable_variables r)) /\
  count accuracy1 = add (count accuracy) (of_nat (length inputs)) /\
  (inputs <> [] -> accuracy1 <> accuracy).
Proof.
  intros Hw. rewrite !train_step_eq.
  unfold local_loss, replica_gradients, compute_loss. rewrite <- Hw.
  rewrite loss_object_batch.
  split; [reflexivity|]. split; [reflexivity|]. split; [reflexivity|].
  split.
  { unfold apply_update, replica_gradients.
    destruct (apply_gradients _ _) as [s v]. reflexivity. }
  assert (Hc : count (local_accuracy accuracy r inputs) =
               add (count accuracy) (of_nat (length inputs))).
  { unfold local_accuracy. rewrite accuracy_update_batch.
    unfold update_state, hits. cbn [count]. now rewrite length_map. }
  split; [exact Hc|].
  intros Hne Heq. rewrite Heq in Hc.
  destruct inputs as [|x inputs]; [now apply Hne|].
  cbn [length] in Hc. qc. symmetry in Hc. apply Qc_add_cancel in Hc.
  now apply (@of_nat_S_nonzero (length inputs)).
Qed.

Lemma train_step_effects_example :
  trainable_variables initial_replica = trainable_variables initial_replica /\
  let '(r1, accuracy1, loss1) :=
    train_step (Net := linear_regression) 4 (fun g => g)
               initial_replica new_metric full_batch in
  count accuracy1 = add (count new_metric) (of_nat (length full_batch)).
Proof.
  split; [reflexivity|].
  assert (H := @train_step_effects linear_regression Adam 4 (fun g => g) (fun g => g)
                 initial_replica initial_replica new_metric new_metric full_batch
                 eq_refl).
  destruct (train_step (Net := linear_regression) 4 (fun g => g)
              initial_replica new_metric full_batch) as [[r1 a1] l1].
  exact (proj1 (proj2 (proj2 (proj2 (proj2 H))))).
Defined.

(** Sizes of sub-batches. *)
Lemma list_sum_le (c : nat) (l : list nat) :
  Forall (fun s => s <= c) l -> list_sum l <= c * length l.
Proof. induction 1; simpl; lia. Qed.

Lemma list_sum_ge (c : nat) (l : list nat) :
  Forall (fun s => c <= s) l -> c * length l <= list_sum l.
Proof. induction 1; simpl; lia. Qed.

Lemma list_sum_lt (c s : nat) (l : list nat) :
  Forall (fun t => t <= c) l -> In s l -> s < c -> list_sum l < c * length l.
Proof.
  induction 1 as [|t l Ht Hl IH]; intros Hin Hs; [destruct Hin|].
  simpl. destruct Hin as [->|Hin].
  - assert (list_sum l <= c * length l) by now apply list_sum_le. lia.
  - specialize (IH Hin Hs). lia.
Qed.

Lemma list_sum_gt (c s : nat) (l : list nat) :
  Forall (fun t => c <= t) l -> In s l -> c < s -> c * length l < list_sum l.
Proof.
  induction 1 as [|t l Ht Hl IH]; intros Hin Hs; [destruct Hin|].
  simpl. destruct Hin as [->|Hin].
  - assert (c * length l <= list_sum l) by now apply list_sum_ge. lia.
  - specialize (IH Hin Hs). lia.
Qed.

Lemma balanced_sizes (c : nat) (sizes : list nat) :
  list_sum sizes = c * length sizes ->
  (forall a b, In a sizes -> In b sizes -> a <= b + 1) ->
  Forall (fun s => s = c) sizes.
Proof.
  intros Hsum Hbal. apply Forall_forall. intros s Hs.
  destruct (Nat.lt_trichotomy s c) as [Hlt|[Heq|Hgt]]; [|exact Heq|].
  - exfalso. assert (list_sum sizes < c * length sizes); [|lia].
    apply list_sum_lt with (s := s); auto.
    apply Forall_forall. intros t Ht. specialize (Hbal t s Ht Hs). lia.
  - exfalso. assert (c * length sizes < list_sum sizes); [|lia].
    apply list_sum_gt with (s := s); auto.
    apply Forall_forall. intros t Ht. specialize (Hbal s t Hs Ht). lia.
Qed.

Lemma length_concat_sum (X : Type) (l : list (list X)) :
  length (concat l) = list_sum (map (@length X) l).
Proof. induction l; simpl; [reflexivity|]. rewrite length_app. lia. Qed.

(** C10.  In notebook 28, in notebook 27 and in [get_data], the global batch
    size is the per-replica batch size times the number of replicas in
    sync; so the number of replicas divides it, and when a full global
    batch is split over the replicas with sizes that differ by at most one,
    every sub-batch has [BATCH_SIZE_PER_REPLICA] examples. *)
Theorem global_batch_is_multiple_of_replicas
    (X : Type) (strategy : MirroredStrategy) (sub_batches : list (list X)) :
  let R := num_replicas_in_sync strategy in
  (GLOBAL_BATCH_SIZE strategy = BATCH_SIZE_PER_REPLICA * R /\
   DistributedKeras.BATCH_SIZE strategy = DistributedKeras.BATCH_SIZE_PER_REPLICA * R /\
   SaveLoadDistributed.BATCH_SIZE strategy = SaveLoadDistributed.BATCH_SIZE_PER_REPLICA * R) /\
  (Nat.divide R (GLOBAL_BATCH_SIZE strategy) /\
   Nat.divide R (DistributedKeras.BATCH_SIZE strategy) /\
   Nat.divide R (SaveLoadDistributed.BATCH_SIZE strategy)) /\
  (length sub_batches = R ->
   length (concat sub_batches) = GLOBAL_BATCH_SIZE strategy ->
   (forall a b, In a sub_batches -> In b sub_batches -> length a <= length b + 1) ->
   Forall (fun s => length s = BATCH_SIZE_PER_REPLICA) sub_batches).
Proof.
  cbv zeta. split; [repeat split|]. split.
  - repeat split; exists 64; reflexivity.
  - intros HR Hsum Hbal.
    assert (H : Forall (fun s => s = BATCH_SIZE_PER_REPLICA) (map (@length X) sub_batches)).
    { apply balanced_sizes.
      - rewrite <- length_concat_sum, Hsum, length_map, HR. reflexivity.
      - intros a b Ha Hb. apply in_map_iff in Ha, Hb.
        destruct Ha as [sa [<- Ha]]. destruct Hb as [sb [<- Hb]]. now apply Hbal. }
    rewrite Forall_map in H. exact H.
Qed.



(** ** Batches and the input pipeline of the estimator *)

Section BatchContents.
Variable X : Type.

Lemma batch_fuel_nil (fuel n : nat) : batch_fuel fuel n (@nil X) = [].
Proof. destruct fuel; reflexivity. Qed.

Lemma batch_fuel_concat (n : nat) : 0 < n -> forall fuel (ds : list X),
  length ds <= fuel -> concat (batch_fuel fuel n ds) = ds.
Proof.
  intros Hn. induction fuel as [|fuel IH]; intros ds H.
  - destruct ds; [reflexivity|cbn [length] in H; lia].
  - destruct ds as [|x ds]; [reflexivity|].
    cbn [batch_fuel concat]. rewrite IH.
    + apply firstn_skipn.
    + rewrite length_skipn. cbn [length] in *. lia.
Qed.

Lemma batch_fuel_nth (n : nat) : 0 < n -> forall fuel (ds : list X) k,
  length ds <= fuel ->
  nth k (batch_fuel fuel n ds) [] = firstn n (skipn (k * n) ds).
Proof.
  intros Hn. induction fuel as [|fuel IH]; intros ds k H.
  - destruct ds; [|cbn [length] in H; lia].
    rewrite skipn_nil, firstn_nil. now destruct k.
  - destruct ds as [|x ds].
    + rewrite skipn_nil, firstn_nil. now destruct k.
    + cbn [batch_fuel]. destruct k as [|k]; [reflexivity|].
      cbn [nth]. rewrite IH.
      * rewrite skipn_skipn. f_equal. f_equal. cbn [Nat.mul]. lia.
      * rewrite length_skipn. cbn [length] in *. lia.
Qed.

Lemma batch_fuel_count (n : nat) : 0 < n -> forall fuel (ds : list X),
  length ds <= fuel ->
  length (batch_fuel fuel n ds) = (length ds + n - 1) / n.
Proof.
  intros Hn. induction fuel as [|fuel IH]; intros ds H.
  - destruct ds; [|cbn [length] in H; lia].
    cbn [batch_fuel length]. symmetry. apply Nat.div_small. lia.
  - destruct ds as [|x ds].
    + cbn [batch_fuel length]. symmetry. apply Nat.div_small. lia.
    + cbn [batch_fuel].
      change (length (firstn n (x :: ds) ::
                      batch_fuel fuel n (skipn n (x :: ds))))
        with (S (length (batch_fuel fuel n (skipn n (x :: ds))))).
      rewrite IH.
      * rewrite length_skipn.
        set (len := length (x :: ds)) in *.
        assert (0 < len) by (subst len; cbn [length]; lia).
        destruct (Nat.le_gt_cases len n) as [L|L].
        -- replace (len - n) with 0 by lia.
           rewrite (Nat.div_small (0 + n - 1)) by lia.
           apply (Nat.div_unique _ _ 1 (len - 1)); lia.
        -- replace (len + n - 1) with ((len - n + n - 1) + 1 * n) by lia.
           rewrite Nat.div_add by lia. lia.
      * rewrite length_skipn. cbn [length] in *. lia.
Qed.

Lemma batch_fuel_nonempty (n : nat) : 0 < n -> forall fuel (ds : list X),
  Forall (fun b => b <> []) (batch_fuel fuel n ds).
Proof.
  intros Hn. induction fuel as [|fuel IH]; intros ds; cbn [batch_fuel];
    [constructor|].
  destruct ds as [|x ds]; [constructor|]. constructor; [|apply IH].
  destruct n; [lia|]. cbn [firstn]. discriminate.
Qed.

Lemma dataset_batch_full (n : nat) (ds : list X) (k : nat) : 0 < n ->
  S k < length (dataset_batch n ds) ->
  length (nth k (dataset_batch n ds) []) = n.
Proof.
  intros Hn. unfold dataset_batch.
  rewrite batch_fuel_count, batch_fuel_nth by lia.
  intros H. rewrite length_firstn, length_skipn.
  assert (D : S k * n + n <= length ds + n - 1).
  { assert (M := Nat.div_mod_eq (length ds + n - 1) n).
    set (q := (length ds + n - 1) / n) in *.
    assert (Q : (S k + 1) * n <= q * n) by (apply Nat.mul_le_mono_r; lia).
    lia. }
  cbn [Nat.mul] in D. lia.
Qed.

Lemma concat_permutation (l1 l2 : list (list X)) :
  Forall2 (@Permutation X) l1 l2 -> Permutation (concat l1) (concat l2).
Proof.
  induction 1; cbn [concat]; [constructor|]. now apply Permutation_app.
Qed.
End BatchContents.

Section InputLemmas.
Context {num : Type} {A : Arith num} {Net : Network num}.
Variable datasets_train datasets_test : list (image * label).
Variable shuffle : nat -> list (image * label) -> list (image * label).
Hypothesis shuffle_permutes : forall buffer_size ds,
  Permutation (shuffle buffer_size ds) ds.

Lemma worker_batches (ds : list (image * label)) :
  let batches := dataset_batch BATCH_SIZE (shuffle BUFFER_SIZE (map scale ds)) in
  Permutation (concat batches) (map scale ds) /\
  Forall (fun b => b <> []) batches /\
  forall k, S k < length batches -> length (nth k batches []) = BATCH_SIZE.
Proof.
  cbv zeta. split; [|split].
  - unfold dataset_batch. rewrite batch_fuel_concat.
    + apply shuffle_permutes.
    + unfold BATCH_SIZE. lia.
    + lia.
  - apply batch_fuel_nonempty. unfold BATCH_SIZE. lia.
  - intros k. apply dataset_batch_full. unfold BATCH_SIZE. lia.
Qed.
End InputLemmas.

Section StepContents.
Variable X : Type.





End StepContents.


Section PipelineLemmas.
Context {num : Type} {A : Arith num} {Net : Network num}.
Variable datasets_train datasets_test : list (image * label).
Variable shuffle : nat -> list (image * label) -> list (image * label).
Hypothesis shuffle_permutes : forall buffer_size ds,
  Permutation (shuffle buffer_size ds) ds.
Variable mode : ModeKeys.
Variable workers : nat.
Hypothesis some_worker : 0 < workers.



End PipelineLemmas.




Section IteratorLemmas.
Context {num : Type} {A : Arith num} {Net : Network num} {Opt : Optimizer num}.
Variable G : nat.

Lemma nth_error_skipn (X : Type) (l : list X) : forall p x,
  nth_error l p = Some x -> skipn p l = x :: skipn (S p) l.
Proof.
  induction l as [|a l IH]; intros [|p] x H; try discriminate.
  - injection H as ->. reflexivity.
  - cbn [nth_error] in H. cbn [skipn]. now apply IH.
Qed.

Lemma iterator_steps_eq (n : nat) : forall st it total_loss num_batches,
  position it + n <= length (source it) ->
  iterator_steps G n st it total_loss num_batches =
  let '(st', total', batches') :=
    train_loop G st total_loss num_batches
               (firstn n (skipn (position it) (source it))) in
  Some (st', {| source := source it; position := position it + n |},
        total', batches').
Proof.
  induction n as [|n IH]; intros st it total_loss num_batches Hlen.
  - cbn. rewrite Nat.add_0_r. destruct it; reflexivity.
  - cbn [iterator_steps]. unfold next.
    destruct (nth_error (source it) (position it)) as [x|] eqn:E.
    + erewrite nth_error_skipn by exact E. cbn [firstn train_loop].
      destruct (distributed_train_step G st x) as [st1 loss].
      rewrite IH; cbn [source position]; [|lia].
      replace (S (position it) + n) with (position it + S n) by lia.
      reflexivity.
    + apply nth_error_None in E. lia.
Qed.

Lemma iterator_steps_stop (n : nat) : forall st it total_loss num_batches,
  position it <= length (source it) ->
  length (source it) < position it + n ->
  iterator_steps G n st it total_loss num_batches = None.
Proof.
  induction n as [|n IH]; intros st it total_loss num_batches Hpos Hlen; [lia|].
  cbn [iterator_steps]. unfold next.
  destruct (nth_error (source it) (position it)) as [x|] eqn:E; [|reflexivity].
  destruct (distributed_train_step G st x) as [st1 loss].
  assert (position it < length (source it)).
  { apply nth_error_Some. now rewrite E. }
  apply IH; cbn [source position]; lia.
Qed.

Lemma train_loop_app (d1 d2 : list (list batch)) : forall st total_loss num_batches,
  train_loop G st total_loss num_batches (d1 ++ d2) =
  let '(st', total', batches') := train_loop G st total_loss num_batches d1 in
  train_loop G st' total' batches' d2.
Proof.
  induction d1 as [|x d1 IH]; intros st total_loss num_batches; cbn [app train_loop].
  - reflexivity.
  - destruct (distributed_train_step G st x) as [st1 loss]. apply IH.
Qed.
End IteratorLemmas.

(** C9.  The loop over [next(train_iter)] can stop after exactly [n] steps
    and go on later: after [n] steps on a new iterator the dataset is
    untouched and the iterator stands at position [n], having trained on
    the first [n] batches; [m] more steps train on the batches
    [n .. n + m - 1], in order, and the result is the one of [n + m] steps
    in a row. *)
Theorem iterator_stops_and_resumes
    (num : Type) (A : Arith num) (Net : Network num) (Opt : Optimizer num)
    (G n m : nat) (train_dist_dataset : list (list batch))
    (st : train_state) (total_loss : num) (num_batches : nat) :
  n + m <= length train_dist_dataset ->
  exists st1 it1 total1 batches1 st2 it2 total2 batches2,
    iterator_steps G n st (iter train_dist_dataset) total_loss num_batches =
      Some (st1, it1, total1, batches1) /\
    source it1 = train_dist_dataset /\ position it1 = n /\
    (st1, total1, batches1) =
      train_loop G st total_loss num_batches (firstn n train_dist_dataset) /\
    iterator_steps G m st1 it1 total1 batches1 =
      Some (st2, it2, total2, batches2) /\
    source it2 = train_dist_dataset /\ position it2 = n + m /\
    (st2, total2, batches2) =
      train_loop G st1 total1 batches1 (firstn m (skipn n train_dist_dataset)) /\
    iterator_steps G (n + m) st (iter train_dist_dataset) total_loss num_batches =
      Some (st2, it2, total2, batches2).
Proof.
  intros Hlen.
  destruct (train_loop G st total_loss num_batches (firstn n train_dist_dataset))
    as [[st1 total1] batches1] eqn:E1.
  destruct (train_loop G st1 total1 batches1 (firstn m (skipn n train_dist_dataset)))
    as [[st2 total2] batches2] eqn:E2.
  exists st1, {| source := train_dist_dataset; position := n |}, total1, batches1,
         st2, {| source := train_dist_dataset; position := n + m |}, total2, batches2.
  rewrite !iterator_steps_eq; cbn [iter source position skipn]; try lia.
  rewrite E1, E2. repeat split.
  rewrite Nat.add_0_l.
  rewrite <- (firstn_skipn n (firstn (n + m) train_dist_dataset)).
  rewrite firstn_firstn, Nat.min_l by lia.
  rewrite skipn_firstn_comm. replace (n + m - n) with m by lia.
  rewrite train_loop_app, E1, E2. reflexivity.
Qed.

Lemma ten_steps_then_ten_more :
  10 + 10 <= length twenty_batches /\
  exists st1 it1 total1 batches1 st2 it2 total2 batches2,
    iterator_steps (Net := linear_regression) 1 10
      (scope_create (Opt := Adam) one_device [rational 1 1])
      (iter (Net := linear_regression) twenty_batches) zero 0 = Some (st1, it1, total1, batches1) /\
    position it1 = 10 /\
    iterator_steps (Net := linear_regression) 1 10 st1 it1 total1 batches1 =
      Some (st2, it2, total2, batches2) /\
    position it2 = 10 + 10 /\
    iterator_steps (Net := linear_regression) 1 (10 + 10)
      (scope_create (Opt := Adam) one_device [rational 1 1])
      (iter (Net := linear_regression) twenty_batches) zero 0 = Some (st2, it2, total2, batches2).
Proof.
  assert (H : 10 + 10 <= length twenty_batches) by (vm_compute; lia).
  split; [exact H|].
  destruct (@iterator_stops_and_resumes Qc _ linear_regression Adam 1 10 10
              twenty_batches (scope_create (Opt := Adam) one_device [rational 1 1])
              zero 0 H)
    as [st1 [it1 [t1 [b1 [st2 [it2 [t2 [b2 [H1 [_ [H3 [_ [H5 [_ [H7 [_ H9]]]]]]]]]]]]]]]].
  exists st1, it1, t1, b1, st2, it2, t2, b2. repeat split; assumption.
Defined.

Section CheckpointLemmas.
Context {num : Type} {A : Arith num} {Net : Network num} {Opt : Optimizer num}.
Variable G : nat.

(** The replicas and the loss of a step do not read the accuracy. *)
Lemma step_ignores_accuracy (rs : list replica) (acc acc' : Metric num)
    (xs : list batch) :
  replicas (fst (distributed_train_step G
              {| replicas := rs; train_accuracy := acc |} xs)) =
  replicas (fst (distributed_train_step G
              {| replicas := rs; train_accuracy := acc' |} xs)) /\
  snd (distributed_train_step G {| replicas := rs; train_accuracy := acc |} xs) =
  snd (distributed_train_step G {| replicas := rs; train_accuracy := acc' |} xs).
Proof.
  unfold distributed_train_step. cbn [replicas train_accuracy].
  rewrite !experimental_run_v2_eq. cbv zeta. cbn [fst snd replicas].
  split; reflexivity.
Qed.

Lemma restore_after_save (save_counter : nat) (prefix : string)
    (st target : train_state) (dir : directory) (r : replica) :
  replicas st = repeat r (length (replicas target)) ->
  replicas (checkpoint_restore
              (latest_checkpoint (snd (checkpoint_save save_counter prefix st dir)))
              target) = replicas st.
Proof.
  intros Hst. unfold checkpoint_save. rewrite Hst.
  destruct (replicas target) as [|t ts] eqn:Et.
  - cbn [length repeat]. unfold checkpoint_restore.
    destruct (latest_checkpoint _); [|exact Et]. cbn [replicas]. now rewrite Et.
  - cbn [length repeat snd latest_checkpoint checkpoint_restore replicas].
    rewrite Et. unfold restore_replica.
    cbn [saved_variables saved_slots map]. destruct r as [w s]. cbn.
    f_equal. rewrite map_const_repeat. reflexivity.
Qed.
End CheckpointLemmas.

(** C8.  A checkpoint saved and loaded back at once gives back the exact
    parameter state, and one training step from the restored state is the
    step that continues training.  For [tf.train.Checkpoint(optimizer,
    model)] of notebook 28, saved from a mirrored state and restored into
    objects with as many replicas: the restored replicas, variables and
    optimizer slots, are those saved; a step from the restored state
    yields the same replicas and the same loss; and it is the same step
    altogether when the accuracy accumulator, which is no part of the
    checkpoint, is the one training continues with.  For [save_weights]
    followed by [load_weights] into a newly created model (notebook 06):
    the model and its optimizer are those saved, whatever the weights the
    new model was created with, and a training step from it is the step
    from the saved model. *)
Theorem checkpoint_round_trip_keeps_the_next_step
    (num : Type) (A : Arith num) (Net : Network num) (Opt : Optimizer num)
    (G save_counter : nat) (prefix : string) (dir : directory)
    (st target : train_state) (r trained : replica) (w0 : list num)
    (dataset_inputs : list batch) (accuracy : Metric num) (inputs : batch) :
  replicas st = repeat r (length (replicas target)) ->
  let restored :=
    checkpoint_restore
      (latest_checkpoint (snd (checkpoint_save save_counter prefix st dir)))
      target in
  let reloaded := load_weights (save_weights trained) (create_model w0) in
  (replicas restored = replicas st /\
   replicas (fst (distributed_train_step G restored dataset_inputs)) =
   replicas (fst (distributed_train_step G st dataset_inputs)) /\
   snd (distributed_train_step G restored dataset_inputs) =
   snd (distributed_train_step G st dataset_inputs) /\
   (train_accuracy target = train_accuracy st ->
    distributed_train_step G restored dataset_inputs =
    distributed_train_step G st dataset_inputs)) /\
  reloaded = trained /\
  plain_train_step G reloaded accuracy inputs =
  plain_train_step G trained accuracy inputs.
Proof.
  intros Hst. cbv zeta.
  assert (Hr := @restore_after_save num Opt save_counter prefix st target dir r Hst).
  assert (Ha : train_accuracy
                 (checkpoint_restore
                    (latest_checkpoint
                       (snd (checkpoint_save save_counter prefix st dir)))
                    target) = train_accuracy target).
  { unfold checkpoint_restore. destruct (latest_checkpoint _); reflexivity. }
  assert (Hl : load_weights (save_weights trained) (create_model w0) = trained).
  { destruct trained as [w s]. reflexivity. }
  split; [|split; [exact Hl|now rewrite Hl]].
  destruct (checkpoint_restore _ target) as [rs' acc'].
  destruct st as [rs acc]. cbn [replicas train_accuracy] in *. subst rs' acc'.
  split; [reflexivity|]. split; [apply step_ignores_accuracy|].
  split; [apply step_ignores_accuracy|].
  intros ->. reflexivity.
Qed.

(** Two mirrored replicas with Adam, restored into two replicas created
    with other weights. *)
Lemma round_trip_of_a_mirrored_state :
  replicas (scope_create (Opt := Adam) two_devices [rational 1 1]) =
  repeat (create_model [rational 1 1])
         (length (replicas (scope_create (Opt := Adam) two_devices [rational 5 1]))) /\
  replicas (checkpoint_restore
              (latest_checkpoint
                 (snd (checkpoint_save 0 "./training_checkpoints/ckpt"%string
                         (scope_create (Opt := Adam) two_devices [rational 1 1]) [])))
              (scope_create (Opt := Adam) two_devices [rational 5 1])) =
  replicas (scope_create (Opt := Adam) two_devices [rational 1 1]) /\
  load_weights (save_weights initial_replica)
               (create_model [rational 0 1; rational 0 1]) = initial_replica.
Proof.
  split; [reflexivity|].
  destruct (@checkpoint_round_trip_keeps_the_next_step Qc _ linear_regression
              Adam 4 0 "./training_checkpoints/ckpt"%string []
              (scope_create (Opt := Adam) two_devices [rational 1 1])
              (scope_create (Opt := Adam) two_devices [rational 5 1])
              (create_model [rational 1 1]) initial_replica
              [rational 0 1; rational 0 1]
              [sub_batch_a; sub_batch_b] new_metric full_batch eq_refl)
    as [[H1 _] [H2 _]].
  split; [exact H1|exact H2].
Defined.

(** Non-finite values. *)
Lemma xadd_nan_r (a : xnum) : add a NaN = NaN.
Proof. destruct a; reflexivity. Qed.

Lemma reduce_sum_nan (l : list xnum) : In NaN l -> reduce_sum l = NaN.
Proof.
  induction l as [|a l IH]; intros H; [destruct H|].
  cbn [reduce_sum fold_right]. destruct H as [->|H].
  - reflexivity.
  - change (fold_right add zero l) with (reduce_sum l). rewrite (IH H).
    apply xadd_nan_r.
Qed.

(** C5, as stated, fails: with a non-finite feature on the second replica
    its local loss is [NaN], and the step still applies the optimizer on
    every replica. *)
Lemma nan_loss_is_applied :
  ~ (In NaN (map (fun rx => local_loss (Net := linear_regression) 2 (fst rx) (snd rx))
                 (combine (replicas nan_state) nan_inputs)) ->
     replicas (fst (distributed_train_step (Net := linear_regression) 2
                      nan_state nan_inputs)) = replicas nan_state).
Proof.
  intros H.
  assert (Hin : In NaN (map (fun rx => local_loss (Net := linear_regression) 2 (fst rx) (snd rx))
                 (combine (replicas nan_state) nan_inputs))).
  { vm_compute. right. left. reflexivity. }
  specialize (H Hin).
  apply (f_equal (map (fun r : replica (num := xnum) (Opt := Adam) =>
                         iterations (num := xnum) (optimizer_slots r)))) in H.
  vm_compute in H. discriminate H.
Qed.

(** C5, amended.  The step has no check for non-finite values.  When the
    local loss of a replica is [NaN], the loss the step returns is [NaN],
    as an ordinary value, and every replica is still updated by the
    optimizer with the sum of the gradients of all replicas. *)
Theorem nan_loss_propagates
    (Net : Network xnum) (Opt : Optimizer xnum) (G : nat)
    (st : train_state) (dataset_inputs : list batch) :
  In NaN (map (fun rx => local_loss G (fst rx) (snd rx))
              (combine (replicas st) dataset_inputs)) ->
  snd (distributed_train_step G st dataset_inputs) = NaN /\
  replicas (fst (distributed_train_step G st dataset_inputs)) =
  map (fun rx =>
         apply_update
           (add_n (length (trainable_variables (fst rx)))
                  (map (fun ry => replica_gradients G (fst ry) (snd ry))
                       (combine (replicas st) dataset_inputs)))
           (fst rx))
      (combine (replicas st) dataset_inputs).
Proof.
  intros H. unfold distributed_train_step.
  rewrite experimental_run_v2_eq. cbv zeta. cbn [fst snd replicas strategy_reduce].
  split; [now apply reduce_sum_nan|reflexivity].
Qed.

Lemma nan_loss_propagates_example :
  In NaN (map (fun rx => local_loss (Net := linear_regression) 2 (fst rx) (snd rx))
              (combine (replicas nan_state) nan_inputs)) /\
  snd (distributed_train_step (Net := linear_regression) 2 nan_state nan_inputs) = NaN.
Proof.
  assert (Hin : In NaN (map (fun rx => local_loss (Net := linear_regression) 2 (fst rx) (snd rx))
                 (combine (replicas nan_state) nan_inputs))).
  { vm_compute. right. left. reflexivity. }
  split; [exact Hin|].
  exact (proj1 (@nan_loss_propagates linear_regression Adam 2 nan_state nan_inputs Hin)).
Defined.

Lemma two_replicas_get_equal_sub_batches :
  (length [repeat tt 64; repeat tt 64] = num_replicas_in_sync two_devices /\
   length (concat [repeat tt 64; repeat tt 64]) = GLOBAL_BATCH_SIZE two_devices /\
   (forall a b, In a [repeat tt 64; repeat tt 64] -> In b [repeat tt 64; repeat tt 64] ->
      length a <= length b + 1)) /\
  Forall (fun s => length s = BATCH_SIZE_PER_REPLICA) [repeat tt 64; repeat tt 64].
Proof.
  assert (H3 : forall a b : list unit, In a [repeat tt 64; repeat tt 64] ->
             In b [repeat tt 64; repeat tt 64] -> length a <= length b + 1).
  { intros a b [<-|[<-|[]]] [<-|[<-|[]]]; rewrite !repeat_length; lia. }
  split; [split; [reflexivity|split; [reflexivity|exact H3]]|].
  exact (proj2 (proj2 (@global_batch_is_multiple_of_replicas unit two_devices
                         [repeat tt 64; repeat tt 64])) eq_refl eq_refl H3).
Defined.

Lemma Qcinv_zero (a : Qc) : (/ a = 0 -> a = 0)%Qc.
Proof.
  intros H. destruct (Qc_eq_dec a 0%Qc) as [E|E]; [exact E|].
  exfalso. apply Q_apart_0_1. rewrite <- (Qcmult_inv_r a E), H. ring.
Qed.

Lemma Qcinv_inj (a b : Qc) : (/ a = / b -> a = b)%Qc.
Proof.
  intros H. destruct (Qc_eq_dec a 0%Qc) as [Ea|Ea].
  - subst a. symmetry. apply Qcinv_zero. rewrite <- H. reflexivity.
  - destruct (Qc_eq_dec b 0%Qc) as [Eb|Eb].
    + subst b. apply Qcinv_zero. rewrite H. reflexivity.
    + transitivity (a * (/ b * b))%Qc.
      * rewrite (Qcmult_inv_l b Eb). ring.
      * rewrite <- H. rewrite Qcmult_assoc, (Qcmult_inv_r a Ea). ring.
Qed.

Lemma of_nat_inj (a b : nat) : of_nat (num := Qc) a = of_nat b -> a = b.
Proof. unfold of_nat. qc. intros H. apply Qc_of_Z_inj in H. lia. Qed.

Lemma scaled_loss_differs_from_mean (l : list Qc) (G : nat) :
  reduce_sum l <> zero -> length l <> G ->
  compute_average_loss l G <> reduce_mean l.
Proof.
  intros HS HG H. rewrite compute_average_loss_div in H. unfold reduce_mean in H.
  qc. unfold Qcdiv in H. apply HG. symmetry. apply of_nat_inj. apply Qcinv_inj.
  apply (f_equal (fun t => (/ reduce_sum l * t)%Qc)) in H.
  rewrite !Qcmult_assoc, (Qcmult_inv_l _ HS), !Qcmult_1_l in H. exact H.
Qed.

Section BatchLemmas.
Variable X : Type.

Lemma batch_fuel_bound (n : nat) (fuel : nat) : forall ds : list X,
  Forall (fun b => length b <= n) (batch_fuel fuel n ds).
Proof.
  induction fuel as [|fuel IH]; intros ds; cbn [batch_fuel]; [constructor|].
  destruct ds as [|x ds]; [constructor|]. constructor; [|apply IH].
  apply firstn_le_length.
Qed.
End BatchLemmas.

Section EstimatorLemmas.
Context {num : Type} {A : Arith num} {Net : Network num}.

Lemma model_fn_train (w : list num) (global_step : nat)
    (all_reduce : list num -> list num) (features : list image)
    (labels : list label) :
  model_fn w global_step all_reduce features labels TRAIN =
  Some {| spec_predictions := None;
          spec_loss :=
            Some (mul (reduce_sum (loss_object labels (map (model w) features)))
                      (div one (of_nat BATCH_SIZE)));
          spec_train_op :=
            Some (map (fun gv => sub (snd gv) (mul LEARNING_RATE (fst gv)))
                      (combine (all_reduce
                                  (tape_gradient BATCH_SIZE w features labels))
                               w),
                  S global_step) |}.
Proof. reflexivity. Qed.

Lemma model_fn_eval (w : list num) (global_step : nat)
    (all_reduce : list num -> list num) (features : list image)
    (labels : list label) :
  model_fn w global_step all_reduce features labels EVAL =
  Some {| spec_predictions := None;
          spec_loss :=
            Some (mul (reduce_sum (loss_object labels (map (model w) features)))
                      (div one (of_nat BATCH_SIZE)));
          spec_train_op := None |}.
Proof. reflexivity. Qed.
End EstimatorLemmas.

(** C1, as stated, fails for [model_fn]: with the two workers of
    [TF_CONFIG] a training step processes 128 examples, 64 per worker, and
    the loss of worker 0 is the sum of its per-example losses divided by
    64, the size of its own batch, not by 128. *)
Lemma estimator_loss_is_scaled_by_worker_batch :
  let local :=
    worker_batch (Net := linear_regression) constant_split constant_split keep_order 0 0 in
  let everyone :=
    step_examples (Net := linear_regression) constant_split constant_split keep_order 0 in
  let w := [rational 1 1] in
  let per_example_loss := per_example (Net := linear_regression) w local in
  length local = 64 /\ length everyone = 128 /\
  exists spec,
    model_fn w 0 (fun g => g) (map fst local) (map snd local) TRAIN = Some spec /\
    spec_loss spec =
      Some (div (reduce_sum per_example_loss) (of_nat (length local))) /\
    spec_loss spec <>
      Some (div (reduce_sum per_example_loss) (of_nat (length everyone))).
Proof.
  cbv zeta. split; [vm_compute; reflexivity|]. split; [vm_compute; reflexivity|].
  eexists. split; [apply model_fn_train|]. cbn [spec_loss]. split.
  - vm_compute. apply f_equal. apply Qc_is_canon. reflexivity.
  - vm_compute. intros H. discriminate H.
Qed.

(** C1, amended.  The loss object gives one loss per example.  In notebook
    28 every replica sums them and divides by [GLOBAL_BATCH_SIZE], that is
    [BATCH_SIZE_PER_REPLICA] times the number of replicas, whatever the
    size of its sub-batch: the result is not the mean over the sub-batch
    unless the sum is zero or the sub-batch has [GLOBAL_BATCH_SIZE]
    examples.  In [model_fn] the sum is divided by [BATCH_SIZE], the bound
    on the size of the batches that [input_fn] makes for each worker. *)
Theorem scaled_loss_divisors
    (Net : Network Qc) (strategy : MirroredStrategy) (w : list Qc)
    (inputs : batch) (all_reduce : list Qc -> list Qc) (global_step : nat)
    (mode : ModeKeys) :
  let labels := map snd inputs in
  let predictions := map (model w) (map fst inputs) in
  let per_example_loss := loss_object labels predictions in
  length per_example_loss = length inputs /\
  compute_loss (GLOBAL_BATCH_SIZE strategy) labels predictions =
    div (reduce_sum per_example_loss)
        (of_nat (BATCH_SIZE_PER_REPLICA * num_replicas_in_sync strategy)) /\
  (reduce_sum per_example_loss <> zero ->
   length inputs <> GLOBAL_BATCH_SIZE strategy ->
   compute_loss (GLOBAL_BATCH_SIZE strategy) labels predictions <>
   reduce_mean per_example_loss) /\
  (mode <> PREDICT ->
   exists spec,
     model_fn w global_step all_reduce (map fst inputs) labels mode = Some spec /\
     spec_loss spec =
     Some (div (reduce_sum per_example_loss) (of_nat BATCH_SIZE))) /\
  (forall datasets_train datasets_test shuffle mode' input_context batches,
     input_fn datasets_train datasets_test shuffle mode' input_context = Some batches ->
     Forall (fun b => length b <= BATCH_SIZE) batches).
Proof.
  cbv zeta.
  assert (Hlen : length (loss_object (map snd inputs) (map (model w) (map fst inputs))) =
                 length inputs).
  { rewrite loss_object_batch. unfold per_example. apply length_map. }
  split; [exact Hlen|]. split.
  { unfold compute_loss. apply compute_average_loss_div. }
  split.
  { intros HS HG. unfold compute_loss. apply scaled_loss_differs_from_mean.
    - exact HS.
    - now rewrite Hlen. }
  split.
  { intros Hmode. destruct mode; [| |congruence]; eexists;
      (split; [first [apply model_fn_train|apply model_fn_eval]|]);
      cbn [spec_loss]; f_equal; apply (compute_average_loss_div _ BATCH_SIZE). }
  intros tr te sh mode' ctx batches H. unfold input_fn in H.
  destruct (match ctx with Some c => _ | None => _ end) as [ds|]; [|discriminate].
  injection H as <-. apply batch_fuel_bound.
Qed.

Lemma scaled_loss_divisors_example :
  (reduce_sum (loss_object (Net := linear_regression) (map snd sub_batch_a)
                 (map (@model Qc linear_regression [rational 1 1]) (map fst sub_batch_a))) <> zero /\
   length sub_batch_a <> GLOBAL_BATCH_SIZE two_devices /\
   TRAIN <> PREDICT) /\
  compute_loss (Net := linear_regression) (GLOBAL_BATCH_SIZE two_devices)
    (map snd sub_batch_a) (map (@model Qc linear_regression [rational 1 1]) (map fst sub_batch_a)) <>
  reduce_mean (loss_object (Net := linear_regression) (map snd sub_batch_a)
                 (map (@model Qc linear_regression [rational 1 1]) (map fst sub_batch_a))).
Proof.
  assert (H1 : reduce_sum (loss_object (Net := linear_regression) (map snd sub_batch_a)
                 (map (@model Qc linear_regression [rational 1 1]) (map fst sub_batch_a))) <> zero).
  { intros H. apply (f_equal (fun q : Qc => this q)) in H. vm_compute in H. discriminate H. }
  assert (H2 : length sub_batch_a <> GLOBAL_BATCH_SIZE two_devices).
  { vm_compute. lia. }
  assert (H3 : TRAIN <> PREDICT) by discriminate.
  split; [split; [exact H1|split; [exact H2|exact H3]]|].
  exact (proj1 (proj2 (proj2 (@scaled_loss_divisors linear_regression two_devices
                  [rational 1 1] sub_batch_a (fun g => g) 0 TRAIN))) H1 H2).
Defined.

(** * Further properties of the training programs *)

(** ** Evaluation, checkpoints and the loops of notebook 28 *)

Section TestLemmas.
Context {Net : Network Qc} {Opt : Optimizer Qc}.

Lemma test_step_eq (r : replica) (m : test_metrics) (x : batch) :
  test_step r m x =
  {| test_loss := update_state (test_loss m) (per_example (trainable_variables r) x);
     test_accuracy := update_state (test_accuracy m) (hits (trainable_variables r) x) |}.
Proof.
  unfold test_step. now rewrite loss_object_batch, accuracy_update_batch.
Qed.

Lemma test_steps_concat (r : replica) (xs : list batch) : forall m,
  fold_left (fun m x => test_step r m x) xs m =
  {| test_loss :=
       update_state (test_loss m) (per_example (trainable_variables r) (concat xs));
     test_accuracy :=
       update_state (test_accuracy m) (hits (trainable_variables r) (concat xs)) |}.
Proof.
  induction xs as [|x xs IH]; intros m; cbn [fold_left concat].
  - cbn [per_example hits map]. rewrite !update_state_nil. now destruct m.
  - rewrite IH, test_step_eq. cbn [test_loss test_accuracy].
    rewrite !update_state_app. unfold per_example, hits. now rewrite !map_app.
Qed.

Lemma distributed_test_step_mirrored (r : replica) (m : test_metrics)
    (xs : list batch) :
  distributed_test_step (repeat r (length xs)) m xs =
  {| test_loss :=
       update_state (test_loss m) (per_example (trainable_variables r) (concat xs));
     test_accuracy :=
       update_state (test_accuracy m) (hits (trainable_variables r) (concat xs)) |}.
Proof.
  unfold distributed_test_step. rewrite combine_repeat, fold_left_map_arg.
  cbn [fst snd]. apply test_steps_concat.
Qed.

Lemma test_loop_mirrored (r : replica) (R : nat) (ds : list (list batch)) :
  Forall (fun x => length x = R) ds -> forall m,
  test_loop (repeat r R) m ds =
  {| test_loss :=
       update_state (test_loss m)
         (per_example (trainable_variables r) (concat (concat ds)));
     test_accuracy :=
       update_state (test_accuracy m)
         (hits (trainable_variables r) (concat (concat ds))) |}.
Proof.
  unfold test_loop.
  induction 1 as [|x ds Hx Hds IH]; intros m; cbn [fold_left concat].
  - cbn [per_example hits map]. rewrite !update_state_nil. now destruct m.
  - rewrite IH. rewrite <- Hx. rewrite distributed_test_step_mirrored.
    cbn [test_loss test_accuracy]. rewrite !update_state_app.
    unfold per_example, hits. now rewrite !concat_app, !map_app.
Qed.

Lemma result_from_new (values : list Qc) :
  result (update_state new_metric values) = reduce_mean values.
Proof.
  unfold result, update_state, new_metric, reduce_mean. cbn [total count].
  f_equal; qc; ring.
Qed.
End TestLemmas.

(** The test loop.  For mirrored replicas and metrics that start empty,
    after [distributed_test_step] has run on every batch of the test
    dataset, [test_loss.result()] is the mean of the losses of all the
    examples of all the batches and [test_accuracy.result()] is the
    fraction of the examples the model labels correctly: the values do not
    depend on how the batches were cut nor on how each was split over the
    replicas. *)
Theorem test_loss_is_mean_over_the_test_set
    (Net : Network Qc) (Opt : Optimizer Qc) (r : replica) (R : nat)
    (test_dist_dataset : list (list batch)) :
  Forall (fun x => length x = R) test_dist_dataset ->
  let m := test_loop (repeat r R) new_test_metrics test_dist_dataset in
  let examples := concat (concat test_dist_dataset) in
  result (test_loss m) = reduce_mean (per_example (trainable_variables r) examples) /\
  result (test_accuracy m) = reduce_mean (hits (trainable_variables r) examples).
Proof.
  intros H. cbv zeta. rewrite (test_loop_mirrored r H).
  cbn [test_loss test_accuracy new_test_metrics].
  split; apply result_from_new.
Qed.

(** Two replicas, two test batches, the second split unevenly. *)
Lemma test_loss_example :
  Forall (fun x : list (list (Qc * Qc)) => length x = 2)
         [[sub_batch_a; sub_batch_b]; [sub_batch_b; []]] /\
  result (test_loss (test_loop (Net := linear_regression)
                       (repeat initial_replica 2) new_test_metrics
                       [[sub_batch_a; sub_batch_b]; [sub_batch_b; []]])) =
  reduce_mean (per_example (Net := linear_regression)
                 (trainable_variables initial_replica)
                 (concat (concat [[sub_batch_a; sub_batch_b]; [sub_batch_b; []]]))).
Proof.
  assert (H : Forall (fun x : list (list (Qc * Qc)) => length x = 2)
                [[sub_batch_a; sub_batch_b]; [sub_batch_b; []]])
    by (repeat constructor).
  split; [exact H|].
  exact (proj1 (@test_loss_is_mean_over_the_test_set linear_regression Adam
                  initial_replica 2 _ H)).
Defined.

Section LoopCount.
Context {num : Type} {A : Arith num} {Net : Network num} {Opt : Optimizer num}.
Variable G : nat.

Lemma train_loop_count (ds : list (list batch)) : forall st total_loss num_batches,
  snd (train_loop G st total_loss num_batches ds) = num_batches + length ds.
Proof.
  induction ds as [|x ds IH]; intros st total_loss num_batches; cbn [train_loop length].
  - cbn. lia.
  - destruct (distributed_train_step G st x) as [st1 loss]. rewrite IH. lia.
Qed.
End LoopCount.

Section RunLemmas.
Context {num : Type} {A : Arith num} {Net : Network num} {Opt : Optimizer num}.
Variable G : nat.
Variable prefix : string.
Variable train_data : nat -> list (list batch).
Variable test_dist_dataset : list (list batch).

Lemma run_epochs_S (n epoch : nat) (s : run_state) :
  run_epochs G prefix train_data test_dist_dataset epoch (S n) s =
  match run_epoch G prefix (train_data epoch) test_dist_dataset epoch s with
  | Some s' => run_epochs G prefix train_data test_dist_dataset (S epoch) n s'
  | None => None
  end.
Proof. reflexivity. Qed.

Lemma run_epochs_snoc (n : nat) : forall epoch s,
  run_epochs G prefix train_data test_dist_dataset epoch (S n) s =
  match run_epochs G prefix train_data test_dist_dataset epoch n s with
  | Some s' =>
      run_epoch G prefix (train_data (epoch + n)) test_dist_dataset (epoch + n) s'
  | None => None
  end.
Proof.
  induction n as [|n IH]; intros epoch s.
  - rewrite run_epochs_S. cbn [run_epochs]. rewrite Nat.add_0_r.
    now destruct (run_epoch G prefix (train_data epoch) test_dist_dataset epoch s).
  - rewrite (run_epochs_S (S n)), (run_epochs_S n).
    destruct (run_epoch G prefix (train_data epoch) test_dist_dataset epoch s)
      as [s1|]; [|reflexivity].
    rewrite IH. replace (S epoch + n) with (epoch + S n) by lia. reflexivity.
Qed.

(** With no training batch the epoch raises. *)
Lemma run_epoch_without_batches (epoch : nat) (s : run_state) :
  run_epoch G prefix [] test_dist_dataset epoch s = None.
Proof. reflexivity. Qed.

Lemma run_epoch_even (train_dist_dataset : list (list batch)) (epoch : nat)
    (s : run_state) :
  train_dist_dataset <> [] -> epoch mod 2 = 0 ->
  exists s',
    run_epoch G prefix train_dist_dataset test_dist_dataset epoch s = Some s' /\
    forall r rest, replicas (run_training s') = r :: rest ->
      latest_checkpoint (run_directory s') = Some (snapshot_of r) /\
      run_save_counter s' = S (run_save_counter s).
Proof.
  intros Hne He. unfold run_epoch.
  assert (C := train_loop_count G train_dist_dataset (run_training s) zero 0).
  destruct (train_loop G (run_training s) zero 0 train_dist_dataset)
    as [[st total_loss] num_batches].
  cbn [snd Nat.add] in C.
  destruct (Nat.eqb_spec num_batches 0) as [E|_].
  { destruct train_dist_dataset; [congruence|cbn [length] in C; lia]. }
  rewrite He. cbn [Nat.eqb].
  destruct (checkpoint_save (run_save_counter s) prefix st (run_directory s))
    as [c d] eqn:Ec.
  eexists. split; [reflexivity|].
  cbn [run_training replicas run_directory run_save_counter].
  intros r rest H. unfold checkpoint_save in Ec. rewrite H in Ec.
  injection Ec as <- <-. cbn [latest_checkpoint]. split; reflexivity.
Qed.

Lemma run_epoch_odd (train_dist_dataset : list (list batch)) (epoch : nat)
    (s : run_state) :
  train_dist_dataset <> [] -> epoch mod 2 = 1 ->
  exists s',
    run_epoch G prefix train_dist_dataset test_dist_dataset epoch s = Some s' /\
    run_directory s' = run_directory s /\
    run_save_counter s' = run_save_counter s.
Proof.
  intros Hne He. unfold run_epoch.
  assert (C := train_loop_count G train_dist_dataset (run_training s) zero 0).
  destruct (train_loop G (run_training s) zero 0 train_dist_dataset)
    as [[st total_loss] num_batches].
  cbn [snd Nat.add] in C.
  destruct (Nat.eqb_spec num_batches 0) as [E|_].
  { destruct train_dist_dataset; [congruence|cbn [length] in C; lia]. }
  rewrite He. cbn [Nat.eqb].
  eexists. split; [reflexivity|]. split; reflexivity.
Qed.

Lemma run_epochs_stop (n : nat) : forall epoch s e,
  epoch <= e < epoch + n -> train_data e = [] ->
  run_epochs G prefix train_data test_dist_dataset epoch n s = None.
Proof.
  induction n as [|n IH]; intros epoch s e He Hd; [lia|].
  rewrite run_epochs_S.
  destruct (Nat.eq_dec epoch e) as [->|Hn].
  - rewrite Hd. now rewrite run_epoch_without_batches.
  - destruct (run_epoch G prefix (train_data epoch) test_dist_dataset epoch s);
      [|reflexivity].
    apply (IH (S epoch) _ e); [lia|exact Hd].
Qed.
End RunLemmas.

(** The training program saves a checkpoint at the end of the epochs
    with an even number only.  When the training dataset of some epoch
    has no batch, that epoch raises and the program ends there.
    Otherwise, after [2k+1] epochs (the last one is epoch [2k]) the latest
    checkpoint holds the variables and the optimizer slots of the current
    model; the next epoch, [2k+1], saves nothing: the directory and the
    save counter are unchanged, and the latest checkpoint still holds the
    state from before that epoch. *)
Theorem latest_checkpoint_is_from_the_last_even_epoch
    (num : Type) (A : Arith num) (Net : Network num) (Opt : Optimizer num)
    (G k : nat) (prefix : string) (train_data : nat -> list (list batch))
    (test_dist_dataset : list (list batch)) (s : run_state) :
  ((exists e, e < 2 * k + 2 /\ train_data e = []) ->
   run_epochs G prefix train_data test_dist_dataset 0 (2 * k + 2) s = None) /\
  ((forall e, e < 2 * k + 2 -> train_data e <> []) ->
   exists odd even,
     run_epochs G prefix train_data test_dist_dataset 0 (2 * k + 1) s = Some odd /\
     run_epochs G prefix train_data test_dist_dataset 0 (2 * k + 2) s = Some even /\
     run_directory even = run_directory odd /\
     run_save_counter even = run_save_counter odd /\
     forall r rest, replicas (run_training odd) = r :: rest ->
       latest_checkpoint (run_directory odd) = Some (snapshot_of r) /\
       latest_checkpoint (run_directory even) = Some (snapshot_of r)).
Proof.
  split.
  { intros [e [He Hd]]. apply run_epochs_stop with (e := e); [lia|exact Hd]. }
  intros Hne.
  assert (Hall : forall n, n <= 2 * k + 2 ->
            exists s', run_epochs G prefix train_data test_dist_dataset 0 n s = Some s').
  { induction n as [|n IH]; intros Hn; [eexists; reflexivity|].
    destruct (IH ltac:(lia)) as [s1 E1].
    rewrite run_epochs_snoc, E1. cbn [Nat.add].
    destruct (Nat.eq_dec (n mod 2) 0) as [E|E].
    - destruct (@run_epoch_even num A Net Opt G prefix test_dist_dataset
                  (train_data n) n s1 (Hne n ltac:(lia)) E) as [s2 [E2 _]].
      now exists s2.
    - assert (E' : n mod 2 = 1)
        by (assert (B := Nat.mod_upper_bound n 2 ltac:(lia)); lia).
      destruct (@run_epoch_odd num A Net Opt G prefix test_dist_dataset
                  (train_data n) n s1 (Hne n ltac:(lia)) E') as [s2 [E2 _]].
      now exists s2. }
  destruct (Hall (2 * k) ltac:(lia)) as [s0 E0].
  assert (He : (2 * k) mod 2 = 0) by (rewrite Nat.mul_comm; apply Nat.Div0.mod_mul).
  assert (Ho : (2 * k + 1) mod 2 = 1).
  { rewrite Nat.add_comm, Nat.mul_comm, Nat.Div0.mod_add. reflexivity. }
  destruct (@run_epoch_even num A Net Opt G prefix test_dist_dataset
              (train_data (2 * k)) (2 * k) s0 (Hne (2 * k) ltac:(lia)) He)
    as [odd [Eodd Hlatest]].
  destruct (@run_epoch_odd num A Net Opt G prefix test_dist_dataset
              (train_data (2 * k + 1)) (2 * k + 1) odd (Hne (2 * k + 1) ltac:(lia)) Ho)
    as [even [Eeven [Hd Hc]]].
  exists odd, even.
  assert (E1 : run_epochs G prefix train_data test_dist_dataset 0 (2 * k + 1) s =
               Some odd).
  { replace (2 * k + 1) with (S (2 * k)) by lia.
    rewrite run_epochs_snoc, E0. exact Eodd. }
  assert (E2 : run_epochs G prefix train_data test_dist_dataset 0 (2 * k + 2) s =
               Some even).
  { replace (2 * k + 2) with (S (2 * k + 1)) by lia.
    rewrite run_epochs_snoc, E1. exact Eeven. }
  split; [exact E1|]. split; [exact E2|]. split; [exact Hd|]. split; [exact Hc|].
  intros r rest Hr. rewrite Hd.
  destruct (Hlatest r rest Hr) as [HL _]. split; exact HL.
Qed.

(** Two epochs of linear regression on one device. *)
Lemma latest_checkpoint_after_two_epochs :
  (forall e, e < 2 * 0 + 2 ->
     (fun _ : nat => [[sub_batch_a]]) e <> ([] : list (list (list (Qc * Qc))))) /\
  exists odd even,
    run_epochs (Net := linear_regression)
      (Opt := GradientDescentOptimizer (rational 1 10)) 2
      "./training_checkpoints/ckpt"%string
      (fun _ => [[sub_batch_a]]) [[sub_batch_b]] 0 (2 * 0 + 1)
      (initial_run one_device [rational 1 1]) = Some odd /\
    run_epochs (Net := linear_regression)
      (Opt := GradientDescentOptimizer (rational 1 10)) 2
      "./training_checkpoints/ckpt"%string
      (fun _ => [[sub_batch_a]]) [[sub_batch_b]] 0 (2 * 0 + 2)
      (initial_run one_device [rational 1 1]) = Some even /\
    run_directory even = run_directory odd.
Proof.
  assert (H : forall e, e < 2 * 0 + 2 ->
     (fun _ : nat => [[sub_batch_a]]) e <> ([] : list (list (list (Qc * Qc)))))
    by (intros e _; discriminate).
  split; [exact H|].
  destruct (proj2 (@latest_checkpoint_is_from_the_last_even_epoch
              Qc _ linear_regression (GradientDescentOptimizer (rational 1 10))
              2 0 "./training_checkpoints/ckpt"%string
              (fun _ => [[sub_batch_a]]) [[sub_batch_b]]
              (initial_run one_device [rational 1 1])) H)
    as [odd [even [H1 [H2 [H3 _]]]]].
  exists odd, even. split; [exact H1|]. split; [exact H2|exact H3].
Defined.

(** The loop that iterates by hand, [for _ in range(10):
    next(train_iter)], on an iterator made anew for the epoch: with fewer
    than ten batches in the dataset [next] fails and the epoch with it;
    with ten or more, the epoch trains on the first ten batches only, in
    order, returns their summed loss divided by ten and resets the
    training accuracy. *)
Theorem iterator_epoch_reads_ten_batches
    (num : Type) (A : Arith num) (Net : Network num) (Opt : Optimizer num)
    (G : nat) (st : train_state) (train_dist_dataset : list (list batch)) :
  (length train_dist_dataset < 10 ->
   iterator_epoch G st train_dist_dataset = None) /\
  (10 <= length train_dist_dataset ->
   iterator_epoch G st train_dist_dataset =
   let '(st', total_loss, _) :=
     train_loop G st zero 0 (firstn 10 train_dist_dataset) in
   Some ({| replicas := replicas st';
            train_accuracy := reset_states (train_accuracy st') |},
         div total_loss (of_nat 10))).
Proof.
  unfold iterator_epoch. split; intros H.
  - rewrite iterator_steps_stop; cbn [iter source position]; [reflexivity|lia|lia].
  - rewrite iterator_steps_eq; cbn [iter source position skipn]; [|lia].
    assert (C := train_loop_count G (firstn 10 train_dist_dataset) st zero 0).
    destruct (train_loop G st zero 0 (firstn 10 train_dist_dataset))
      as [[st' total_loss] num_batches].
    cbn [snd] in C. rewrite length_firstn, Nat.min_l in C by exact H.
    cbn [Nat.add] in C. subst num_batches. reflexivity.
Qed.

(** Nine batches are too few; twenty are enough. *)
Lemma iterator_epoch_on_short_and_long_datasets :
  (length (firstn 9 twenty_batches) < 10 /\ 10 <= length twenty_batches) /\
  iterator_epoch (Net := linear_regression) 1
    (scope_create (Opt := Adam) one_device [rational 1 1])
    (firstn 9 twenty_batches) = None.
Proof.
  assert (H1 : length (firstn 9 twenty_batches) < 10) by (vm_compute; lia).
  assert (H2 : 10 <= length twenty_batches) by (vm_compute; lia).
  split; [split; [exact H1|exact H2]|].
  exact (proj1 (@iterator_epoch_reads_ten_batches Qc _ linear_regression Adam 1
                  (scope_create (Opt := Adam) one_device [rational 1 1])
                  (firstn 9 twenty_batches)) H1).
Defined.

Section ExactLoop.
Context {Net : Network Qc} {Opt : Optimizer Qc}.
Variable G : nat.

Lemma mirrored_loop (R : nat) (train_dist_dataset : list (list batch)) :
  Forall (fun x => length x = R) train_dist_dataset ->
  forall (r : replica) (acc : Metric Qc) (total_loss : Qc) (num_batches : nat),
  exists r' acc' total_loss' num_batches',
    train_loop G {| replicas := repeat r R; train_accuracy := acc |}
      total_loss num_batches train_dist_dataset =
    ({| replicas := repeat r' R; train_accuracy := acc' |},
     total_loss', num_batches') /\
    train_loop G {| replicas := [r]; train_accuracy := acc |}
      total_loss num_batches
      (map (fun x => [concat x : batch]) train_dist_dataset) =
    ({| replicas := [r']; train_accuracy := acc' |},
     total_loss', num_batches').
Proof.
  induction 1 as [|x ds Hx _ IH]; intros r acc total_loss num_batches;
    cbn [map train_loop].
  - exists r, acc, total_loss, num_batches. split; reflexivity.
  - subst R. rewrite (mirrored_step G r acc x).
    assert (E := mirrored_step G r acc [concat x : batch]).
    cbn [concat length repeat] in E. rewrite app_nil_r in E. rewrite E.
    apply IH.
Qed.
End ExactLoop.

(** A whole epoch of replicated training is an epoch of training on
    one replica, in exact arithmetic.  With mirrored replicas at the
    start, at least one batch (without a batch the loss is not a number)
    and every global batch split, in order, into one sub-batch per
    replica, [distributed_train_epoch] leaves on every replica the
    variables and slots one replica gets from the unsplit batches, the
    same state of [train_accuracy], accumulated over the epoch, and
    returns the same average loss. *)
Theorem replicated_epoch_equals_single_replica_epoch
    (Net : Network Qc) (Opt : Optimizer Qc) (G R : nat)
    (r : replica) (acc : Metric Qc) (train_dist_dataset : list (list batch)) :
  train_dist_dataset <> [] ->
  Forall (fun x => length x = R) train_dist_dataset ->
  let replicated :=
    distributed_train_epoch G
      {| replicas := repeat r R; train_accuracy := acc |} train_dist_dataset in
  let single :=
    distributed_train_epoch G {| replicas := [r]; train_accuracy := acc |}
      (map (fun x => [concat x : batch]) train_dist_dataset) in
  exists r',
    replicas (fst single) = [r'] /\
    replicas (fst replicated) = repeat r' R /\
    train_accuracy (fst replicated) = train_accuracy (fst single) /\
    result (train_accuracy (fst replicated)) =
    result (train_accuracy (fst single)) /\
    snd replicated = snd single.
Proof.
  intros _ H. cbv zeta. unfold distributed_train_epoch.
  destruct (mirrored_loop G H r acc zero 0) as [r' [acc' [t [k [E1 E2]]]]].
  rewrite E1, E2. cbn [fst snd replicas train_accuracy].
  exists r'. repeat split.
Qed.

(** Two replicas and two global batches of four examples. *)
Lemma replicated_epoch_example :
  ([[sub_batch_a; sub_batch_b]; [sub_batch_b; sub_batch_a]] <> [] /\
   Forall (fun x : list (@batch Qc linear_regression) => length x = 2)
     [[sub_batch_a; sub_batch_b]; [sub_batch_b; sub_batch_a]]) /\
  exists r',
    replicas (fst (distributed_train_epoch (Net := linear_regression)
                     (Opt := Adam) 4
                     {| replicas := repeat initial_replica 2;
                        train_accuracy := new_metric |}
                     [[sub_batch_a; sub_batch_b]; [sub_batch_b; sub_batch_a]]))
    = repeat r' 2.
Proof.
  assert (N : [[sub_batch_a; sub_batch_b]; [sub_batch_b; sub_batch_a]] <> [])
    by discriminate.
  assert (H : Forall (fun x : list (@batch Qc linear_regression) => length x = 2)
    [[sub_batch_a; sub_batch_b]; [sub_batch_b; sub_batch_a]])
    by (repeat constructor).
  split; [split; [exact N|exact H]|].
  destruct (@replicated_epoch_equals_single_replica_epoch linear_regression Adam 4 2
              initial_replica new_metric _ N H) as [r' [_ [H2 _]]].
  exists r'. exact H2.
Defined.

(** ** The input pipeline of the estimator *)

(** [input_fn] over the workers of a cluster.  With [workers] input
    pipelines, [input_fn] succeeds on every worker; the batches of all
    the workers together hold every example of the split that [mode]
    selects, scaled, exactly once; no batch is empty and, on every
    worker, every batch but the last holds [BATCH_SIZE] examples. *)
Theorem input_fn_feeds_every_example_to_one_worker
    (num : Type) (A : Arith num) (Net : Network num)
    (datasets_train datasets_test : list (image * label))
    (shuffle : nat -> list (image * label) -> list (image * label))
    (mode : ModeKeys) (workers : nat) :
  (forall buffer_size ds, Permutation (shuffle buffer_size ds) ds) ->
  0 < workers ->
  let mnist_dataset :=
    match mode with TRAIN => datasets_train | _ => datasets_test end in
  exists per_worker,
    map (fun i => input_fn datasets_train datasets_test shuffle mode
                    (Some {| num_input_pipelines := workers;
                             input_pipeline_id := i |}))
        (seq 0 workers) = map Some per_worker /\
    Permutation (concat (map (@concat _) per_worker)) (map scale mnist_dataset) /\
    Forall (fun batches =>
              Forall (fun b => b <> []) batches /\
              forall k, S k < length batches ->
                length (nth k batches []) = BATCH_SIZE) per_worker.
Proof.
  intros Hs Hw. cbv zeta.
  set (data := match mode with TRAIN => datasets_train | _ => datasets_test end).
  exists (map (fun i => dataset_batch BATCH_SIZE
                          (shuffle BUFFER_SIZE
                             (map scale (shard_from workers i 0 data))))
              (seq 0 workers)).
  split; [|split].
  - rewrite map_map. apply map_ext_in. intros i Hi. apply in_seq in Hi.
    unfold input_fn, shard. cbn [num_input_pipelines input_pipeline_id].
    fold data.
    destruct (Nat.leb_spec 1 workers); [|lia].
    destruct (Nat.ltb_spec i workers); [|lia]. reflexivity.
  - rewrite map_map.
    eapply Permutation_trans.
    + apply concat_permutation.
      instantiate (1 := map (fun i => map scale (shard_from workers i 0 data))
                            (seq 0 workers)).
      induction (seq 0 workers) as [|i l IH]; cbn [map]; constructor; [|exact IH].
      apply (worker_batches shuffle Hs).
    + rewrite <- map_map, <- concat_map. apply Permutation_map.
      apply shards_permutation. exact Hw.
  - apply Forall_forall. intros batches Hb. apply in_map_iff in Hb.
    destruct Hb as [i [<- _]].
    destruct (worker_batches shuffle Hs (shard_from workers i 0 data)) as [_ H].
    exact H.
Qed.

(** ** Labelled text, padded batches and the split *)

Import LoadText.

Section LabelLemmas.
Variable X : Type.

Lemma in_enumerate_from (Y : Type) (l : list Y) : forall s i (y : Y),
  In (i, y) (enumerate_from s l) <-> s <= i /\ nth_error l (i - s) = Some y.
Proof.
  induction l as [|z l IH]; intros s i y; cbn [enumerate_from In].
  - split; [tauto|]. intros [_ H]. destruct (i - s); discriminate.
  - rewrite IH. split.
    + intros [E|[L H]].
      * injection E as <- <-. rewrite Nat.sub_diag. split; [lia|reflexivity].
      * split; [lia|]. replace (i - s) with (S (i - S s)) by lia. exact H.
    + intros [L H]. destruct (Nat.eq_dec s i) as [<-|N].
      * rewrite Nat.sub_diag in H. injection H as <-. now left.
      * right. split; [lia|].
        replace (i - s) with (S (i - S s)) in H by lia. exact H.
Qed.

Lemma fold_left_app_concat (others : list (list X)) : forall first,
  fold_left (fun all labeled_dataset => all ++ labeled_dataset) others first =
  first ++ concat others.
Proof.
  induction others as [|o others IH]; intros first; cbn [fold_left concat].
  - now rewrite app_nil_r.
  - rewrite IH. now rewrite app_assoc.
Qed.

Lemma length_concat_enumerate (read_lines : String.string -> list X)
    (file_names : list String.string) : forall s,
  length (concat (map (fun ifn : nat * String.string =>
                         map (fun ex => labeler ex (fst ifn))
                             (read_lines (snd ifn)))
                      (enumerate_from s file_names))) =
  list_sum (map (fun name => length (read_lines name)) file_names).
Proof.
  induction file_names as [|f l IH]; intros s;
    cbn [enumerate_from map concat list_sum]; [reflexivity|].
  rewrite length_app, length_map, IH. reflexivity.
Qed.
End LabelLemmas.

(** The labelled lines.  Without a file, taking [labeled_data_sets[0]]
    fails.  Otherwise [all_labeled_data] holds as many examples as the
    files have lines, and a line appears with a label exactly when that
    label is the position, in [FILE_NAMES], of a file holding that line. *)
Theorem every_line_is_labelled_with_the_index_of_its_file
    (X : Type) (file_names : list String.string)
    (read_lines : String.string -> list X)
    (shuffle : nat -> list (X * Z) -> list (X * Z)) :
  (forall buffer_size ds, Permutation (shuffle buffer_size ds) ds) ->
  (file_names = [] ->
   all_labeled_data shuffle (labeled_data_sets file_names read_lines) = None) /\
  (file_names <> [] ->
   exists all,
     all_labeled_data shuffle (labeled_data_sets file_names read_lines) =
     Some all /\
     length all =
     list_sum (map (fun name => length (read_lines name)) file_names) /\
     forall example (index : Z),
       In (example, index) all <->
       exists i name,
         nth_error file_names i = Some name /\ index = Z.of_nat i /\
         In example (read_lines name)).
Proof.
  intros Hs. split.
  - intros ->. reflexivity.
  - intros Hne. unfold all_labeled_data.
    destruct (labeled_data_sets file_names read_lines) as [|first others] eqn:E.
    { destruct file_names; [congruence|discriminate E]. }
    eexists. split; [reflexivity|].
    rewrite fold_left_app_concat.
    change (first ++ concat others) with (concat (first :: others)).
    rewrite <- E. unfold labeled_data_sets. split.
    + rewrite (Permutation_length (Hs _ _)). apply length_concat_enumerate.
    + intros example index. split.
      * intros H. apply (Permutation_in _ (Hs _ _)) in H.
        apply in_concat in H. destruct H as [set [Hset Hin]].
        apply in_map_iff in Hset. destruct Hset as [[i name] [<- Hi]].
        apply in_map_iff in Hin. destruct Hin as [ex [Hl Hex]].
        unfold labeler in Hl. cbn [fst snd] in *. injection Hl as -> <-.
        apply in_enumerate_from in Hi. destruct Hi as [_ Hi].
        rewrite Nat.sub_0_r in Hi. exists i, name. repeat split; assumption.
      * intros [i [name [Hn [-> Hex]]]].
        apply (Permutation_in _ (Permutation_sym (Hs _ _))).
        apply in_concat. eexists. split.
        -- apply in_map_iff. exists (i, name). split; [reflexivity|].
           apply in_enumerate_from. rewrite Nat.sub_0_r. split; [lia|exact Hn].
        -- cbn [fst snd]. apply in_map_iff. exists example. split; [reflexivity|exact Hex].
Qed.

Section PadLemmas.

Lemma pad_to_length (n : nat) (text : list Z) :
  length text <= n -> length (pad_to n text) = n.
Proof.
  intros H. unfold pad_to. rewrite length_app, repeat_length. lia.
Qed.

Lemma pad_texts (examples : list (list Z * Z)) :
  let longest := list_max (map (fun e => length (fst e)) examples) in
  Forall (fun text => length text = longest) (fst (pad examples)) /\
  Forall2 (fun text e => exists k, text = fst e ++ repeat 0%Z k)
          (fst (pad examples)) examples /\
  snd (pad examples) = map snd examples.
Proof.
  cbv zeta. unfold pad. cbn [fst snd].
  set (longest := list_max (map (fun e => length (fst e)) examples)).
  assert (B : Forall (fun e : list Z * Z => length (fst e) <= longest) examples).
  { assert (H : Forall (fun k => k <= longest)
                       (map (fun e : list Z * Z => length (fst e)) examples))
      by (apply list_max_le; subst longest; lia).
    rewrite Forall_map in H. exact H. }
  clearbody longest. split; [|split; [|reflexivity]].
  - rewrite Forall_map. eapply Forall_impl; [|exact B].
    intros e He. now apply pad_to_length.
  - clear B. induction examples as [|e l IH]; cbn [map]; constructor; [|exact IH].
    eexists. reflexivity.
Qed.

Lemma padded_texts (batches : list (list (list Z * Z))) :
  Forall2 (fun text e => exists k, text = fst e ++ repeat 0%Z k)
          (concat (map fst (map pad batches))) (concat batches).
Proof.
  induction batches as [|b l IH]; cbn [map concat]; [constructor|].
  apply Forall2_app; [|exact IH]. apply pad_texts.
Qed.

Lemma padded_labels (batches : list (list (list Z * Z))) :
  concat (map snd (map pad batches)) = map snd (concat batches).
Proof.
  induction batches as [|b l IH]; cbn [map concat]; [reflexivity|].
  rewrite map_app, IH. reflexivity.
Qed.
End PadLemmas.

Lemma padded_batch_shape_helper (batch_size : nat) (ds : list (list Z * Z)) :
  0 < batch_size ->
  Forall2 (fun text e => exists k, text = fst e ++ repeat 0%Z k)
          (concat (map fst (padded_batch batch_size ds))) ds /\
  concat (map snd (padded_batch batch_size ds)) = map snd ds.
Proof.
  intros Hb. unfold padded_batch.
  assert (C : concat (dataset_batch batch_size ds) = ds)
    by (apply batch_fuel_concat; lia).
  split.
  - rewrite <- C at 2. apply padded_texts.
  - rewrite padded_labels, C. reflexivity.
Qed.

(** [padded_batch].  No batch is empty or larger than [batch_size];
    every batch but the last holds [batch_size] examples; a batch has one
    label per text and all its texts have one length.  Read in order, the
    texts of the batches are the texts of the dataset, each followed by
    zeros only, and the labels are the labels of the dataset. *)
Theorem padded_batch_fills_with_zeros_to_the_longest_text
    (batch_size : nat) (ds : list (list Z * Z)) :
  0 < batch_size ->
  let batches := padded_batch batch_size ds in
  Forall (fun b =>
            fst b <> [] /\ length (fst b) <= batch_size /\
            length (snd b) = length (fst b) /\
            exists longest, Forall (fun text => length text = longest) (fst b))
         batches /\
  (forall k, S k < length batches ->
     length (fst (nth k batches ([], []))) = batch_size) /\
  Forall2 (fun text e => exists k, text = fst e ++ repeat 0%Z k)
          (concat (map fst batches)) ds /\
  concat (map snd batches) = map snd ds.
Proof.
  intros Hb. cbv zeta. unfold padded_batch.
  assert (C : concat (dataset_batch batch_size ds) = ds)
    by (apply batch_fuel_concat; lia).
  split; [|split; [|split]].
  - rewrite Forall_map. apply Forall_forall. intros b Hin.
    assert (N : b <> []).
    { assert (F := batch_fuel_nonempty Hb (length ds) ds).
      rewrite Forall_forall in F. now apply F. }
    assert (L : length b <= batch_size).
    { assert (F := batch_fuel_bound batch_size (length ds) ds).
      rewrite Forall_forall in F. now apply F. }
    destruct (pad_texts b) as [P1 _].
    unfold pad in *. cbn [fst snd] in *. rewrite !length_map.
    repeat split; try assumption.
    + destruct b; [congruence|discriminate].
    + eexists. exact P1.
  - intros k Hk. rewrite length_map in Hk.
    change ([], []) with (pad []) at 1. rewrite map_nth.
    unfold pad. cbn [fst]. rewrite length_map.
    now apply dataset_batch_full.
  - rewrite <- C at 2. apply padded_texts.
  - rewrite padded_labels, C. reflexivity.
Qed.

(** The split into [test_data] and [train_data] loses and repeats
    nothing: the examples behind the test batches are the first
    [TAKE_SIZE] of the encoded dataset, in order, those behind the
    training batches are the others in some order, and every batch text
    is the text of its example followed by zeros, with its label. *)
Theorem split_gives_every_example_to_one_side
    (shuffle : nat -> list (list Z * Z) -> list (list Z * Z))
    (all_encoded_data : list (list Z * Z)) :
  (forall buffer_size ds, Permutation (shuffle buffer_size ds) ds) ->
  exists tested trained,
    Permutation (tested ++ trained) all_encoded_data /\
    tested = firstn TAKE_SIZE all_encoded_data /\
    Forall2 (fun text e => exists k, text = fst e ++ repeat 0%Z k)
            (concat (map fst (test_data all_encoded_data))) tested /\
    concat (map snd (test_data all_encoded_data)) = map snd tested /\
    Forall2 (fun text e => exists k, text = fst e ++ repeat 0%Z k)
            (concat (map fst (train_data shuffle all_encoded_data))) trained /\
    concat (map snd (train_data shuffle all_encoded_data)) = map snd trained.
Proof.
  intros Hs.
  exists (firstn TAKE_SIZE all_encoded_data),
         (shuffle BUFFER_SIZE (skipn TAKE_SIZE all_encoded_data)).
  assert (B : 0 < BATCH_SIZE) by (unfold BATCH_SIZE; lia).
  split; [|split; [reflexivity|]].
  - rewrite <- (firstn_skipn TAKE_SIZE all_encoded_data) at 3.
    apply Permutation_app_head. apply Hs.
  - unfold test_data, train_data.
    destruct (@padded_batch_shape_helper _ (firstn TAKE_SIZE all_encoded_data) B) as [T1 T2].
    destruct (@padded_batch_shape_helper _
                (shuffle BUFFER_SIZE (skipn TAKE_SIZE all_encoded_data)) B) as [S1 S2].
    repeat split; assumption.
Qed.

(** ** The linear model of "Custom training: basics" *)

Import Basics.

Lemma combine_map_l (X Y Z : Type) (f : X -> Z) (a : list X) (b : list Y) :
  combine (map f a) b = map (fun xy => (f (fst xy), snd xy)) (combine a b).
Proof.
  revert b. induction a as [|x a IH]; intros [|y b]; simpl; auto. now rewrite IH.
Qed.

Section BasicsAny.
Context {num : Type} {A : Arith num}.

Lemma broadcast_call (m : Model) (inputs outputs : list num) :
  broadcast (call m inputs) outputs =
  match broadcast inputs outputs with
  | Some examples => Some (map (fun xy => (call1 m (fst xy), snd xy)) examples)
  | None => None
  end.
Proof.
  unfold broadcast, call. rewrite length_map.
  destruct (length inputs =? length outputs).
  - now rewrite combine_map_l.
  - destruct inputs as [|x [|x' inputs]]; cbn [map].
    + destruct outputs as [|y [|y' outputs]]; reflexivity.
    + now rewrite map_map.
    + destruct outputs as [|y [|y' outputs]]; try reflexivity.
      cbn [map fst snd]. rewrite !map_map. reflexivity.
Qed.

Lemma loss_call (m : Model) (inputs outputs : list num) :
  loss (call m inputs) outputs =
  match broadcast inputs outputs with
  | Some examples =>
      Some (reduce_mean (map (fun xy => square (residual m xy)) examples))
  | None => None
  end.
Proof.
  unfold loss. rewrite broadcast_call.
  destruct (broadcast inputs outputs) as [examples|]; [|reflexivity].
  now rewrite map_map.
Qed.
End BasicsAny.

(** Order on exact rationals. *)
Lemma Qc_square_nonneg (x : Qc) : (0 <= x * x)%Qc.
Proof.
  destruct (Qclt_le_dec x 0) as [H|H].
  - replace (x * x)%Qc with ((- x) * (- x))%Qc by ring.
    assert (H0 : (0 <= - x)%Qc).
    { apply Qclt_le_weak in H. apply Qcopp_le_compat in H.
      now replace (- 0)%Qc with 0%Qc in H by ring. }
    replace 0%Qc with (0 * - x)%Qc by ring.
    now apply Qcmult_le_compat_r.
  - replace 0%Qc with (0 * x)%Qc by ring. now apply Qcmult_le_compat_r.
Qed.

Lemma Qc_square_zero (x : Qc) : (x * x = 0 -> x = 0)%Qc.
Proof. intros H. now destruct (Qcmult_integral _ _ H). Qed.

Lemma Qc_add_nonneg (a b : Qc) : (0 <= a -> 0 <= b -> 0 <= a + b)%Qc.
Proof.
  intros Ha Hb. replace 0%Qc with (0 + 0)%Qc by ring.
  now apply Qcplus_le_compat.
Qed.

Lemma Qc_add_zero (a b : Qc) : (0 <= a -> 0 <= b -> a + b = 0 -> a = 0 /\ b = 0)%Qc.
Proof.
  intros Ha Hb H.
  assert (Ha' : (a <= 0)%Qc).
  { assert (L : (a + 0 <= a + b)%Qc)
      by (apply Qcplus_le_compat; [apply Qcle_refl|exact Hb]).
    rewrite H in L. now rewrite Qcplus_0_r in L. }
  assert (E : a = 0%Qc) by now apply Qcle_antisym.
  split; [exact E|]. rewrite E in H. rewrite <- H. ring.
Qed.

Lemma Qc_inv_nonneg (a : Qc) : (0 <= a -> 0 <= / a)%Qc.
Proof.
  intros H. unfold Qcle in *.
  change (this (Q2Qc 0)) with 0%Q in *.
  change (this (/ a)%Qc) with (Qred (/ a)).
  rewrite Qred_correct. now apply Qinv_le_0_compat.
Qed.

Lemma Qc_mul_nonneg (a b : Qc) : (0 <= a -> 0 <= b -> 0 <= a * b)%Qc.
Proof.
  intros Ha Hb. replace 0%Qc with (0 * b)%Qc by ring.
  now apply Qcmult_le_compat_r.
Qed.

Lemma of_nat_nonneg (n : nat) : (0 <= of_nat (num := Qc) n)%Qc.
Proof.
  unfold of_nat. qc. unfold Qcle, Qc_of_Z.
  change (this (Q2Qc 0)) with 0%Q.
  change (this (Q2Qc (inject_Z (Z.of_nat n)))) with (Qred (inject_Z (Z.of_nat n))).
  rewrite Qred_correct. unfold Qle. simpl. lia.
Qed.

Lemma sum_squares_nonneg (X : Type) (f : X -> Qc) (l : list X) :
  (0 <= reduce_sum (map (fun x => square (f x)) l))%Qc.
Proof.
  induction l as [|x l IH]; cbn [map reduce_sum fold_right].
  - qc. apply Qcle_refl.
  - qc. apply Qc_add_nonneg; [apply Qc_square_nonneg|exact IH].
Qed.

Lemma sum_squares_zero (X : Type) (f : X -> Qc) (l : list X) :
  reduce_sum (map (fun x => square (f x)) l) = zero <->
  Forall (fun x => f x = zero) l.
Proof.
  induction l as [|x l IH]; cbn [map reduce_sum fold_right].
  - split; [constructor|reflexivity].
  - split.
    + intros H. qc.
      apply Qc_add_zero in H; [|apply Qc_square_nonneg|apply (sum_squares_nonneg f l)].
      destruct H as [H1 H2]. constructor.
      * now apply Qc_square_zero.
      * now apply IH.
    + intros H. inversion H as [|? ? Hx Hl]; subst.
      apply IH in Hl. unfold reduce_sum in Hl. rewrite Hl.
      unfold square. rewrite Hx. qc. ring.
Qed.

(** [loss(model(inputs), outputs)] of the linear model, on at least
    one example (the mean over no example is not a number), is never
    negative, and it is zero exactly when the model returns the expected
    output on every example. *)
Theorem loss_is_zero_exactly_on_a_fit
    (m : Model) (inputs outputs : list Qc) (examples : list (Qc * Qc)) (l : Qc) :
  broadcast inputs outputs = Some examples ->
  examples <> [] ->
  loss (call m inputs) outputs = Some l ->
  (0 <= l)%Qc /\
  (l = 0%Qc <-> Forall (fun xy => call1 m (fst xy) = snd xy) examples).
Proof.
  intros Hb _ Hl. rewrite loss_call, Hb in Hl.
  assert (E : reduce_mean (map (fun xy => square (residual m xy)) examples) = l)
    by (injection Hl; auto).
  clear Hl. subst l. unfold reduce_mean. rewrite length_map.
  assert (HS : (0 <= reduce_sum (map (fun xy => square (residual m xy)) examples))%Qc)
    by apply sum_squares_nonneg.
  assert (Hz : reduce_sum (map (fun xy => square (residual m xy)) examples) = zero <->
               Forall (fun xy => residual m xy = zero) examples)
    by apply sum_squares_zero.
  remember (reduce_sum (map (fun xy => square (residual m xy)) examples)) as S eqn:ES.
  clear ES.
  assert (Hr : Forall (fun xy => residual m xy = zero) examples <->
               Forall (fun xy => call1 m (fst xy) = snd xy) examples).
  { split; intros H; eapply Forall_impl; try exact H; intros xy E;
      unfold residual in *; qc.
    - replace (call1 m (fst xy)) with ((call1 m (fst xy) - snd xy) + snd xy)%Qc by ring.
      rewrite E. ring.
    - rewrite E. ring. }
  split.
  - qc. unfold Qcdiv. apply Qc_mul_nonneg; [exact HS|].
    apply Qc_inv_nonneg, of_nat_nonneg.
  - rewrite <- Hr, <- Hz. qc. unfold Qcdiv. split.
    + intros H. apply Qcmult_integral in H. destruct H as [H|H]; [exact H|].
      apply Qcinv_zero in H.
      destruct examples as [|xy examples]; [apply Hz; constructor|].
      exfalso. now apply (@of_nat_S_nonzero (length examples)).
    + intros E. rewrite E. ring.
Qed.

Lemma reduce_sum_zero (X : Type) (f : X -> Qc) (l : list X) :
  Forall (fun x => f x = zero) l -> reduce_sum (map f l) = zero.
Proof.
  induction 1 as [|x l Hx _ IH]; cbn [map reduce_sum fold_right]; [reflexivity|].
  unfold reduce_sum in IH. rewrite IH, Hx. qc. ring.
Qed.

Lemma reduce_mean_zero (X : Type) (f : X -> Qc) (l : list X) :
  Forall (fun x => f x = zero) l -> reduce_mean (map f l) = zero.
Proof.
  intros H. unfold reduce_mean. rewrite (reduce_sum_zero f H). qc.
  unfold Qcdiv. ring.
Qed.

(** A model that fits every example is a fixed point of [train]: both
    gradients are zero and [W] and [b] keep their values, whatever the
    learning rate. *)
Theorem train_keeps_a_fitted_model
    (m : Model) (inputs outputs : list Qc) (examples : list (Qc * Qc))
    (learning_rate : Qc) :
  broadcast inputs outputs = Some examples ->
  examples <> [] ->
  Forall (fun xy => call1 m (fst xy) = snd xy) examples ->
  train m inputs outputs learning_rate = Some m.
Proof.
  intros Hb _ Hfit. unfold train. rewrite Hb. unfold gradient_W, gradient_b.
  rewrite !reduce_mean_zero.
  - destruct m as [w0 b0]. cbn [W b]. f_equal. f_equal; qc; ring.
  - eapply Forall_impl; [|exact Hfit]. intros xy E. unfold residual. rewrite E.
    qc. ring.
  - eapply Forall_impl; [|exact Hfit]. intros xy E. unfold residual. rewrite E.
    qc. ring.
Qed.

Lemma sum_linear (X : Type) (f g : X -> Qc) (c d : Qc) (l : list X) :
  reduce_sum (map (fun x => (c * f x + d * g x)%Qc) l) =
  (c * reduce_sum (map f l) + d * reduce_sum (map g l))%Qc.
Proof.
  induction l as [|x l IH]; cbn [map reduce_sum fold_right].
  - qc. ring.
  - unfold reduce_sum in IH. rewrite IH. qc. ring.
Qed.

Lemma Qc_of_Z_two : Qc_of_Z 2 = (1 + 1)%Qc.
Proof. apply Qc_is_canon. reflexivity. Qed.

Lemma sum_shifted_squares (X : Type) (e u : X -> Qc) (t : Qc) (l : list X) :
  reduce_sum (map (fun x => square (e x - t * u x)%Qc) l) =
  (reduce_sum (map (fun x => square (e x)) l)
   - t * reduce_sum (map (fun x => (Qc_of_Z 2 * e x * u x)%Qc) l)
   + t * t * reduce_sum (map (fun x => square (u x)) l))%Qc.
Proof.
  induction l as [|x l IH]; cbn [map reduce_sum fold_right].
  - qc. ring.
  - unfold reduce_sum in IH. rewrite IH. unfold square. qc.
    rewrite Qc_of_Z_two. ring.
Qed.

Lemma reduce_sum_ext (X : Type) (f g : X -> Qc) (l : list X) :
  (forall x, f x = g x) -> reduce_sum (map f l) = reduce_sum (map g l).
Proof. intros H. f_equal. now apply map_ext. Qed.

(** The effect of one call of [train] on the loss, on at least one
    example and in exact arithmetic (the rounding of the floating-point
    code is left out).  With [dW] and [db] the gradients at the model, the
    loss of
    the trained model is the loss of the model, minus [learning_rate *
    (dW^2 + db^2)], plus [learning_rate^2] times the mean of [(dW * x +
    db)^2] over the inputs.  So a step with a learning rate that is not
    negative and small enough never increases the loss. *)
Theorem train_changes_the_loss_by_the_gradient
    (m : Model) (inputs outputs : list Qc) (examples : list (Qc * Qc))
    (learning_rate : Qc) :
  broadcast inputs outputs = Some examples ->
  examples <> [] ->
  let dW := gradient_W m examples in
  let db := gradient_b m examples in
  let curvature :=
    reduce_mean (map (fun xy => square (dW * fst xy + db)%Qc) examples) in
  exists m' l l',
    train m inputs outputs learning_rate = Some m' /\
    loss (call m inputs) outputs = Some l /\
    loss (call m' inputs) outputs = Some l' /\
    l' = (l - learning_rate * (dW * dW + db * db)
          + learning_rate * learning_rate * curvature)%Qc /\
    ((0 <= learning_rate)%Qc ->
     (learning_rate * curvature <= dW * dW + db * db)%Qc ->
     (l' <= l)%Qc).
Proof.
  intros Hb _. cbv zeta.
  set (dW := gradient_W m examples). set (db := gradient_b m examples).
  exists {| W := sub (W m) (mul learning_rate dW);
            b := sub (b m) (mul learning_rate db) |}.
  eexists. eexists.
  split; [unfold train; rewrite Hb; reflexivity|].
  split; [rewrite loss_call, Hb; reflexivity|].
  split; [rewrite loss_call, Hb; reflexivity|].
  assert (E : reduce_mean
                (map (fun xy => square
                        (residual {| W := sub (W m) (mul learning_rate dW);
                                     b := sub (b m) (mul learning_rate db) |} xy))
                     examples) =
              (reduce_mean (map (fun xy => square (residual m xy)) examples)
               - learning_rate * (dW * dW + db * db)
               + learning_rate * learning_rate *
                 reduce_mean (map (fun xy => square (dW * fst xy + db)%Qc) examples))%Qc).
  { unfold reduce_mean. rewrite !length_map.
    rewrite (reduce_sum_ext
               (fun xy => square (residual {| W := sub (W m) (mul learning_rate dW);
                                              b := sub (b m) (mul learning_rate db) |} xy))
               (fun xy => square (residual m xy - learning_rate * (dW * fst xy + db))%Qc)).
    2:{ intros xy. unfold residual, call1, square. cbn [W b]. qc. ring. }
    rewrite sum_shifted_squares.
    rewrite (reduce_sum_ext
               (fun xy => (Qc_of_Z 2 * residual m xy * (dW * fst xy + db))%Qc)
               (fun xy => (dW * (of_Z 2 * residual m xy * fst xy)
                           + db * (of_Z 2 * residual m xy))%Qc)).
    2:{ intros xy. qc. ring. }
    rewrite sum_linear.
    assert (EW : dW = (reduce_sum (map (fun xy => (of_Z 2 * residual m xy * fst xy)%Qc) examples)
                       / of_nat (length examples))%Qc).
    { unfold dW, gradient_W, reduce_mean. now rewrite length_map. }
    assert (Eb : db = (reduce_sum (map (fun xy => (of_Z 2 * residual m xy)%Qc) examples)
                       / of_nat (length examples))%Qc).
    { unfold db, gradient_b, reduce_mean. now rewrite length_map. }
    remember (reduce_sum (map (fun xy => (of_Z 2 * residual m xy * fst xy)%Qc) examples)) as SW.
    remember (reduce_sum (map (fun xy => (of_Z 2 * residual m xy)%Qc) examples)) as Sb.
    remember (reduce_sum (map (fun xy => square (residual m xy)) examples)) as S2.
    remember (reduce_sum (map (fun xy => square (dW * fst xy + db)%Qc) examples)) as SU.
    remember (of_nat (num := Qc) (length examples)) as n.
    clearbody dW db. subst dW db. qc. unfold Qcdiv. ring. }
  split; [exact E|].
  intros Hlr Hsmall. rewrite E.
  remember (reduce_mean (map (fun xy => square (residual m xy)) examples)) as L.
  remember (reduce_mean (map (fun xy => square (dW * fst xy + db)%Qc) examples)) as C.
  remember (dW * dW + db * db)%Qc as D.
  assert (H1 : (learning_rate * C * learning_rate <= D * learning_rate)%Qc)
    by now apply Qcmult_le_compat_r.
  assert (H2 : (L + learning_rate * C * learning_rate <= L + D * learning_rate)%Qc)
    by (apply Qcplus_le_compat; [apply Qcle_refl|exact H1]).
  assert (H3 : (L + learning_rate * C * learning_rate + - (D * learning_rate)
                <= L + D * learning_rate + - (D * learning_rate))%Qc)
    by (apply Qcplus_le_compat; [exact H2|apply Qcle_refl]).
  replace (L - learning_rate * D + learning_rate * learning_rate * C)%Qc
    with (L + learning_rate * C * learning_rate + - (D * learning_rate))%Qc by ring.
  replace L with (L + D * learning_rate + - (D * learning_rate))%Qc at 2 by ring.
  exact H3.
Qed.

Section HistoryLemmas.
Context {num : Type} {A : Arith num}.
Variable inputs outputs : list num.

Lemma training_loop_split (k j : nat) : forall m h,
  training_loop (k + j) m h inputs outputs =
  match training_loop k m h inputs outputs with
  | Some (m1, h1) => training_loop j m1 h1 inputs outputs
  | None => None
  end.
Proof.
  induction k as [|k IH]; intros m h; cbn [Nat.add training_loop].
  - reflexivity.
  - destruct (loss (call m inputs) outputs) as [l|]; [|reflexivity].
    destruct (train m inputs outputs (div (of_Z 1) (of_Z 10))) as [m1|]; [|reflexivity].
    apply IH.
Qed.

Lemma training_loop_appends (j : nat) : forall m h m' h',
  training_loop j m h inputs outputs = Some (m', h') ->
  exists sW sb sl,
    Ws h' = Ws h ++ sW /\ bs h' = bs h ++ sb /\ losses h' = losses h ++ sl /\
    length sW = j /\ length sb = j /\ length sl = j /\
    (0 < j ->
     hd_error sW = Some (W m) /\ hd_error sb = Some (b m) /\
     loss (call m inputs) outputs = hd_error sl).
Proof.
  induction j as [|j IH]; intros m h m' h' H; cbn [training_loop] in H.
  - injection H as <- <-. exists [], [], []. rewrite !app_nil_r.
    repeat split; lia.
  - destruct (loss (call m inputs) outputs) as [l|] eqn:El; [|discriminate].
    destruct (train m inputs outputs (div (of_Z 1) (of_Z 10))) as [m1|]; [|discriminate].
    destruct (IH _ _ _ _ H) as [sW [sb [sl [H1 [H2 [H3 [L1 [L2 [L3 _]]]]]]]]].
    cbn [Ws bs losses] in H1, H2, H3.
    exists (W m :: sW), (b m :: sb), (l :: sl).
    rewrite H1, H2, H3, <- !app_assoc. cbn [app length hd_error].
    repeat split; try reflexivity; lia.
Qed.
End HistoryLemmas.

(** The training loop collects [Ws] and [bs] before it trains: after
    a loop of [epochs] rounds that did not fail, the histories have
    [epochs] entries each, and entry [k] holds [W], [b] and the loss of the
    model as [k] rounds of training left it: entry 0 is the initial
    model, and the model the loop ends with is in none of them. *)
Theorem history_holds_the_values_before_each_step
    (num : Type) (A : Arith num) (epochs : nat) (m m' : Model)
    (inputs outputs : list num) (h' : history) :
  training_loop epochs m empty_history inputs outputs = Some (m', h') ->
  length (Ws h') = epochs /\ length (bs h') = epochs /\
  length (losses h') = epochs /\
  forall k, k < epochs ->
    exists mk hk,
      training_loop k m empty_history inputs outputs = Some (mk, hk) /\
      nth_error (Ws h') k = Some (W mk) /\
      nth_error (bs h') k = Some (b mk) /\
      nth_error (losses h') k = loss (call mk inputs) outputs.
Proof.
  intros H.
  destruct (training_loop_appends _ _ _ _ _ H) as [sW [sb [sl [H1 [H2 [H3 [L1 [L2 [L3 _]]]]]]]]].
  cbn [empty_history Ws bs losses app] in H1, H2, H3.
  split; [now rewrite H1|]. split; [now rewrite H2|]. split; [now rewrite H3|].
  intros k Hk.
  replace epochs with (k + S (epochs - S k)) in H by lia.
  rewrite training_loop_split in H.
  destruct (training_loop k m empty_history inputs outputs) as [[mk hk]|] eqn:Ek;
    [|discriminate].
  exists mk, hk. split; [reflexivity|].
  destruct (training_loop_appends _ _ _ _ _ Ek) as [pW [pb [pl [P1 [P2 [P3 [K1 [K2 [K3 _]]]]]]]]].
  cbn [empty_history Ws bs losses app] in P1, P2, P3.
  destruct (training_loop_appends _ _ _ _ _ H) as [qW [qb [ql [Q1 [Q2 [Q3 [_ [_ [_ Q]]]]]]]]].
  destruct (Q ltac:(lia)) as [QW [Qb Ql]].
  rewrite Q1, Q2, Q3, P1, P2, P3.
  rewrite !nth_error_app2 by lia. rewrite K1, K2, K3, Nat.sub_diag.
  destruct qW, qb, ql; cbn [hd_error nth_error] in *; try discriminate.
  - repeat split; congruence.
  - repeat split; congruence.
Qed.

(** ** The learning rate schedule *)

Import LearningRate.

Lemma decay_values (epoch : nat) :
  decay (num := Qc) epoch =
  if epoch <? 3 then rational 1 1000
  else if epoch <? 7 then rational 1 10000 else rational 1 100000.
Proof.
  unfold decay.
  destruct (Nat.ltb_spec epoch 3); [apply Qc_is_canon; reflexivity|].
  destruct (Nat.leb_spec 3 epoch); [|lia]. cbn [andb].
  destruct (epoch <? 7); apply Qc_is_canon; reflexivity.
Qed.

(** The learning rate [decay] gives never increases from an epoch to
    a later one, and it takes three values only: [1e-3], [1e-4] and
    [1e-5]. *)
Theorem decay_never_increases (epoch later : nat) :
  epoch <= later ->
  (decay (num := Qc) later <= decay epoch)%Qc /\
  (decay (num := Qc) epoch = rational 1 1000 \/
   decay (num := Qc) epoch = rational 1 10000 \/
   decay (num := Qc) epoch = rational 1 100000).
Proof.
  intros H. rewrite !decay_values. split.
  - destruct (Nat.ltb_spec epoch 3), (Nat.ltb_spec later 3),
      (Nat.ltb_spec epoch 7), (Nat.ltb_spec later 7); try lia;
      unfold Qcle; vm_compute; discriminate.
  - destruct (epoch <? 3); [now left|].
    destruct (epoch <? 7); [right; now left|right; now right].
Qed.

(** Epochs 2 and 7. *)
Lemma decay_example :
  2 <= 7 /\ (decay (num := Qc) 7 <= decay 2)%Qc.
Proof.
  split; [lia|]. apply (proj1 (@decay_never_increases 2 7 ltac:(lia))).
Defined.

(** ** Examples *)

(** The line [3 x + 2] through two of its points. *)
Lemma loss_of_a_fitted_line :
  let m := {| W := rational 3 1; b := rational 2 1 |} in
  let inputs := [rational 1 1; rational 2 1] in
  let outputs := [rational 5 1; rational 8 1] in
  broadcast inputs outputs = Some (combine inputs outputs) /\
  combine inputs outputs <> [] /\
  exists l, loss (call m inputs) outputs = Some l /\ (0 <= l)%Qc.
Proof.
  cbv zeta. split; [reflexivity|]. split; [discriminate|].
  eexists. split; [reflexivity|].
  refine (proj1 (@loss_is_zero_exactly_on_a_fit
                   {| W := rational 3 1; b := rational 2 1 |}
                   [rational 1 1; rational 2 1] [rational 5 1; rational 8 1]
                   _ _ eq_refl _ eq_refl)).
  discriminate.
Defined.

(** Training the line [3 x + 2] on two of its points. *)
Lemma train_on_a_fitted_line :
  let m := {| W := rational 3 1; b := rational 2 1 |} in
  let inputs := [rational 1 1; rational 2 1] in
  let outputs := [rational 5 1; rational 8 1] in
  broadcast inputs outputs = Some (combine inputs outputs) /\
  combine inputs outputs <> [] /\
  Forall (fun xy => call1 m (fst xy) = snd xy) (combine inputs outputs) /\
  train m inputs outputs (rational 1 10) = Some m.
Proof.
  cbv zeta.
  assert (F : Forall (fun xy => call1 {| W := rational 3 1; b := rational 2 1 |}
                                  (fst xy) = snd xy)
                (combine [rational 1 1; rational 2 1]
                         [rational 5 1; rational 8 1])).
  { repeat constructor; apply Qc_is_canon; reflexivity. }
  split; [reflexivity|]. split; [discriminate|]. split; [exact F|].
  refine (@train_keeps_a_fitted_model
            {| W := rational 3 1; b := rational 2 1 |}
            [rational 1 1; rational 2 1] [rational 5 1; rational 8 1]
            _ (rational 1 10) eq_refl _ F).
  discriminate.
Defined.

(** One step from the initial model, [W = 5] and [b = 0]. *)
Lemma train_from_the_initial_model :
  let inputs := [rational 1 1; rational 2 1] in
  let outputs := [rational 5 1; rational 8 1] in
  broadcast inputs outputs = Some (combine inputs outputs) /\
  combine inputs outputs <> [] /\
  exists m' l l',
    train new_Model inputs outputs (rational 1 10) = Some m' /\
    loss (call new_Model inputs) outputs = Some l /\
    loss (call m' inputs) outputs = Some l'.
Proof.
  cbv zeta. split; [reflexivity|]. split; [discriminate|].
  destruct (@train_changes_the_loss_by_the_gradient new_Model
              [rational 1 1; rational 2 1] [rational 5 1; rational 8 1]
              _ (rational 1 10) eq_refl ltac:(discriminate))
    as [m' [l [l' [H1 [H2 [H3 _]]]]]].
  exists m', l, l'. repeat split; assumption.
Defined.

(** Two rounds from the initial model. *)
Lemma history_of_two_epochs :
  let inputs := [rational 1 1; rational 2 1] in
  let outputs := [rational 5 1; rational 8 1] in
  exists m' h',
    training_loop 2 new_Model empty_history inputs outputs = Some (m', h') /\
    length (Ws h') = 2.
Proof.
  cbv zeta. eexists. eexists. split; [reflexivity|].
  refine (proj1 (@history_holds_the_values_before_each_step Qc Qc_arith 2
                   new_Model _ [rational 1 1; rational 2 1]
                   [rational 5 1; rational 8 1] _ eq_refl)).
Defined.

(** Two workers, three examples, a shuffle that keeps the order. *)
Lemma two_workers_share_three_examples :
  let data := [(rational 0 1, rational 1 1); (rational 255 1, rational 2 1);
               (rational 510 1, rational 3 1)] in
  (forall (buffer_size : nat) (ds : list (@image Qc linear_regression * @label Qc linear_regression)),
     Permutation ((fun _ ds => ds) buffer_size ds) ds) /\
  0 < 2 /\
  exists per_worker,
    Permutation (concat (map (@concat _) per_worker))
                (map (scale (Net := linear_regression)) data).
Proof.
  cbv zeta. split; [intros; apply Permutation_refl|]. split; [lia|].
  destruct (@input_fn_feeds_every_example_to_one_worker Qc Qc_arith
              linear_regression
              [(rational 0 1, rational 1 1); (rational 255 1, rational 2 1);
               (rational 510 1, rational 3 1)]
              [] (fun _ ds => ds) TRAIN 2
              (fun _ ds => Permutation_refl ds) ltac:(lia))
    as [per_worker [_ [H _]]].
  exists per_worker. exact H.
Defined.

(** Two files, of two lines and of one line. *)
Lemma labels_of_two_files :
  let read_lines := fun name : String.string =>
    if String.eqb name "cowper.txt" then [1; 2] else [3] in
  (forall (buffer_size : nat) (ds : list (nat * Z)),
     Permutation ((fun _ ds => ds) buffer_size ds) ds) /\
  ["cowper.txt"%string; "derby.txt"%string] <> [] /\
  exists all,
    all_labeled_data (fun _ ds => ds)
      (labeled_data_sets ["cowper.txt"%string; "derby.txt"%string] read_lines)
    = Some all /\ length all = 3.
Proof.
  cbv zeta. split; [intros; apply Permutation_refl|]. split; [discriminate|].
  destruct (proj2 (@every_line_is_labelled_with_the_index_of_its_file nat
              ["cowper.txt"%string; "derby.txt"%string]
              (fun name : String.string =>
                 if String.eqb name "cowper.txt" then [1; 2] else [3])
              (fun _ ds => ds) (fun _ ds => Permutation_refl ds))
             ltac:(discriminate))
    as [all [H1 [H2 _]]].
  exists all. split; [exact H1|exact H2].
Defined.

(** Three texts in batches of two. *)
Lemma padded_batches_of_three_texts :
  0 < 2 /\
  concat (map snd (padded_batch 2 [([1; 2; 3], 0); ([4], 1); ([5; 6], 2)]%Z)) =
  [0; 1; 2]%Z.
Proof.
  split; [lia|].
  exact (proj2 (proj2 (proj2 (@padded_batch_fills_with_zeros_to_the_longest_text 2
           [([1; 2; 3], 0); ([4], 1); ([5; 6], 2)]%Z ltac:(lia))))).
Defined.

(** A dataset smaller than [TAKE_SIZE]: all of it is test data. *)
Lemma split_of_three_texts :
  (forall (buffer_size : nat) (ds : list (list Z * Z)),
     Permutation ((fun _ ds => ds) buffer_size ds) ds) /\
  exists tested trained,
    Permutation (tested ++ trained) [([1; 2; 3], 0); ([4], 1); ([5; 6], 2)]%Z.
Proof.
  split; [intros; apply Permutation_refl|].
  destruct (@split_gives_every_example_to_one_side (fun _ ds => ds)
              [([1; 2; 3], 0); ([4], 1); ([5; 6], 2)]%Z
              (fun _ ds => Permutation_refl ds))
    as [tested [trained [H _]]].
  exists tested, trained. exact H.
Defined.
